(** * Request pipeline and per-user rate limiter of the VPN telegram bot

  A shallow embedding of
  - [internal/bot]: the per-user [RateLimiter] ([Allow], [cleanup]);
  - [internal/middleware]: [Chain], [NewRequestDataFromUpdate] and the
    [Recovery], [RateLimit] and [Audit] middlewares.

  Conventions.  A [time.Time] is the number of nanoseconds since the zero
  [Time]; a [time.Duration] is a signed 64-bit number of nanoseconds and
  [Time.Sub] saturates at the ends of that range, as the Go library does.
  The reading of [time.Now()] is an input of every operation that takes
  it.  The limiter's mutex makes every [Allow] and every [cleanup] atomic,
  so each is one transition on the map of entries; the pointers stored in
  the map are never handed out ([GetUserLimit] copies), so updating the
  pointee is updating the binding.

  A handler is a function on a world that is threaded through the call; it
  returns nil or an error, or panics.  [Timeout] runs its inner handler on
  a goroutine of its own and races it against a deadline; it has no place
  in this sequential embedding and is left out.

  Further down: the [Logger] middleware, the dispatcher of
  [handler_middleware.go] with its terminal handlers, the audit logger and
  its adapter, the quota methods of [domain.User] and the keyboards of
  [utils].  The rows of a keyboard builder are slices into a heap of
  arrays: [AddRow] keeps the slice it is given and [AddButton] appends in
  place, so two rows can share an array. *)

From stdpp Require Import base numbers option list strings gmap fin_maps.

Local Open Scope Z_scope.

(** ** The pieces of Go's [time] package the limiter uses *)

Module GoTime.

Definition Time : Type := Z.
Definition Duration : Type := Z.

Definition minDuration : Duration := - 2 ^ 63.
Definition maxDuration : Duration := 2 ^ 63 - 1.

Definition Nanosecond : Duration := 1.
Definition Second : Duration := 1000000000 * Nanosecond.
Definition Minute : Duration := 60 * Second.
Definition Hour : Duration := 60 * Minute.

(** [time.Time{}] *)
Definition zeroTime : Time := 0.

(** [t.Sub(u)]: the difference, or the nearest representable duration. *)
Definition Sub (t u : Time) : Duration :=
  if t - u <? minDuration then minDuration
  else if maxDuration <? t - u then maxDuration
  else t - u.

End GoTime.

(** ** The fields of the [tgbotapi] types the pipeline reads

    Pointer fields are options: [None] is nil. *)

Module Tgbotapi.

Record User : Type := mkUser {
  User_ID : Z;
  User_UserName : string
}.

Record Chat : Type := mkChat {
  Chat_ID : Z
}.

Record Message : Type := mkMessage {
  Message_MessageID : Z;
  Message_From : option User;
  Message_Chat : option Chat;
  Message_Text : string
}.

Record CallbackQuery : Type := mkCallbackQuery {
  CallbackQuery_From : option User;
  CallbackQuery_Message : option Message;
  CallbackQuery_Data : string
}.

(** [other] stands for the remaining optional fields of an update
    (edited message, channel post, inline query, ...). *)
Record Update : Type := mkUpdate {
  Update_Message : option Message;
  Update_CallbackQuery : option CallbackQuery;
  Update_other : option string
}.

End Tgbotapi.

(** ** Package [middleware] *)

Module Middleware.
Import GoTime.

(** [error] values: the four sentinels of the package, and any other
    error (a domain error, a runtime error) identified by its message. *)
Inductive error : Type :=
| ErrTimeout
| ErrRateLimitExceeded
| ErrInvalidRequestData
| ErrInternalError
| ErrorString (msg : string).

(** What [recover()] yields after a panic: a value that implements [error]
    or one that does not.  Since Go 1.21 [panic(nil)] arrives as a
    [*runtime.PanicNilError], which is an error. *)
Inductive panic_value : Type :=
| PanicError (e : error)
| PanicOther (v : string).

(** The run-time panic of a nil pointer dereference. *)
Definition nilDereference : panic_value :=
  PanicError (ErrorString "runtime error: invalid memory address or nil pointer dereference").

(** A Go call either returns a value or panics. *)
Inductive result (A : Type) : Type :=
| Value (a : A)
| Panic (r : panic_value).
Arguments Value {A} a.
Arguments Panic {A} r.

Definition result_bind {A B : Type} (m : result A) (k : A → result B) : result B :=
  match m with
  | Value a => k a
  | Panic r => Panic r
  end.

Notation "x ←! m ; k" := (result_bind m (λ x, k))
  (at level 20, m at level 100, k at level 200, right associativity,
   format "x  ←!  m ;  '/' k").

(** [p.f] for a pointer [p]. *)
Definition deref {A : Type} (p : option A) : result A :=
  match p with
  | Some a => Value a
  | None => Panic nilDereference
  end.

Record RequestData : Type := mkRequestData {
  Update : Tgbotapi.Update;
  Message : option Tgbotapi.Message;
  Callback : option Tgbotapi.CallbackQuery;
  UserID : Z;
  ChatID : Z;
  Username : string
}.

(** [NewRequestDataFromUpdate]: the two [if]s run one after the other, the
    second overwriting the identity fields the first has set. *)
Definition NewRequestDataFromUpdate (update : Tgbotapi.Update) : result RequestData :=
  let data := mkRequestData update None None 0 0 "" in
  data ←! match Tgbotapi.Update_Message update with
          | Some message =>
              from ←! deref (Tgbotapi.Message_From message);
              chat ←! deref (Tgbotapi.Message_Chat message);
              Value (mkRequestData (Update data) (Some message) (Callback data)
                       (Tgbotapi.User_ID from) (Tgbotapi.Chat_ID chat)
                       (Tgbotapi.User_UserName from))
          | None => Value data
          end;
  match Tgbotapi.Update_CallbackQuery update with
  | Some callback =>
      from ←! deref (Tgbotapi.CallbackQuery_From callback);
      message ←! deref (Tgbotapi.CallbackQuery_Message callback);
      chat ←! deref (Tgbotapi.Message_Chat message);
      Value (mkRequestData (Update data) (Message data) (Some callback)
               (Tgbotapi.User_ID from) (Tgbotapi.Chat_ID chat)
               (Tgbotapi.User_UserName from))
  | None => Value data
  end.

(** Exactly one of two optional values is present. *)
Definition exactly_one {A B : Type} (a : option A) (b : option B) : Prop :=
  (is_Some a ∧ b = None) ∨ (a = None ∧ is_Some b).

(** The pointers [NewRequestDataFromUpdate] dereferences are not nil. *)
Definition pointers_present (update : Tgbotapi.Update) : Prop :=
  (∀ message, Tgbotapi.Update_Message update = Some message →
     is_Some (Tgbotapi.Message_From message)
     ∧ is_Some (Tgbotapi.Message_Chat message))
  ∧ (∀ callback, Tgbotapi.Update_CallbackQuery update = Some callback →
       is_Some (Tgbotapi.CallbackQuery_From callback)
       ∧ ∃ message, Tgbotapi.CallbackQuery_Message callback = Some message
                    ∧ is_Some (Tgbotapi.Message_Chat message)).

(** The [data interface{}] a handler receives: a [*RequestData], which
    points to a descriptor or is nil, or a value of some other dynamic type
    (the nil interface, a string, ...).  The type assertion the middlewares
    make succeeds on the first two; reading a field of the nil pointer
    panics. *)
Inductive Data : Type :=
| Request (requestData : RequestData)
| NilRequest
| NotRequest (v : string).

(** [context.Context], as far as the package builds one. *)
Inductive Context : Type :=
| Background
| WithTimeout (parent : Context) (duration : Duration).

(** The collaborators a middleware reaches through an interface act on a
    world [W] that is threaded through every handler. *)

(** [RateLimiter] interface. *)
Class RateLimiter (W : Type) : Type :=
  Allow : Z → W → bool * W.

(** [AuditLogger] interface: [LogAction] returns nothing. *)
Class AuditLogger (W : Type) : Type :=
  LogAction : Z → string → Time → W → W.

(** [time.Now()]. *)
Class Clock (W : Type) : Type :=
  Now : W → Time.

(** The [*logrus.Logger]: [logger.WithField(key, r).Error(msg)]. *)
Class Logger (W : Type) : Type :=
  LogPanic : string → panic_value → string → W → W.

Section Handlers.
Context {W : Type}.

(** [HandlerFunc]: returns nil ([None]) or an error, or panics. *)
Definition HandlerFunc : Type :=
  Context → Data → W → result (option error) * W.

Definition Middleware : Type := HandlerFunc → HandlerFunc.

(** The loop of [Chain], with [n = i + 1]: it runs while [i >= 0] and
    indexes [middlewares[i]]. *)
Fixpoint Chain_loop (middlewares : list Middleware) (n : nat)
    (handler : HandlerFunc) : HandlerFunc :=
  match n with
  | O => handler
  | S i =>
      match middlewares !! i with
      | Some m => Chain_loop middlewares i (m handler)
      | None => handler
      end
  end.

Definition Chain (handler : HandlerFunc) (middlewares : list Middleware)
  : HandlerFunc :=
  Chain_loop middlewares (length middlewares) handler.

(** [Recovery]: the deferred function runs when [next] panics, logs, and
    sets the named result. *)
Definition Recovery `{!Logger W} : Middleware :=
  λ next ctx data w,
    match next ctx data w with
    | (Value err, w1) => (Value err, w1)
    | (Panic r, w1) =>
        let w2 := LogPanic "panic" r "Handler panicked" w1 in
        match r with
        | PanicError panicErr => (Value (Some panicErr), w2)
        | PanicOther _ => (Value (Some ErrInternalError), w2)
        end
    end.

(** [RateLimit]. *)
Definition RateLimit `{!RateLimiter W} : Middleware :=
  λ next ctx data w,
    match data with
    | NotRequest _ => (Value (Some ErrInvalidRequestData), w)
    | NilRequest => (Panic nilDereference, w)
    | Request requestData =>
        let '(ok, w1) := Allow (UserID requestData) w in
        if negb ok then (Value (Some ErrRateLimitExceeded), w1)
        else next ctx data w1
    end.

(** The action label [Audit] computes. *)
Definition audit_action (requestData : RequestData) : string :=
  match Message requestData with
  | Some message => "message:" +:+ Tgbotapi.Message_Text message
  | None =>
      match Callback requestData with
      | Some callback => "callback:" +:+ Tgbotapi.CallbackQuery_Data callback
      | None => "unknown"
      end
  end.

(** [Audit]. *)
Definition Audit `{!AuditLogger W} `{!Clock W} : Middleware :=
  λ next ctx data w,
    match data with
    | NotRequest _ => (Value (Some ErrInvalidRequestData), w)
    | NilRequest => (Panic nilDereference, w)
    | Request requestData =>
        let action := audit_action requestData in
        let w1 := LogAction (UserID requestData) action (Now w) w in
        next ctx data w1
    end.

(** A middleware consults the inner handler at the data it was itself
    given, and at no other: it neither replaces nor alters the descriptor
    on the way in.  The context it passes on may be one it derived. *)
Definition forwards_descriptor (m : Middleware) : Prop :=
  ∀ next next' data,
    (∀ ctx w, next ctx data w = next' ctx data w) →
    ∀ ctx w, m next ctx data w = m next' ctx data w.

End Handlers.

Arguments HandlerFunc W : clear implicits.
Arguments Middleware W : clear implicits.

(** *** Instrumented handlers, as the package's tests build them *)

(** A middleware that appends a marker before and after delegating. *)
Definition marker (name : string) : Middleware (list string) :=
  λ next ctx data w,
    match next ctx data (w ++ [name +:+ "_in"]) with
    | (Value err, w1) => (Value err, w1 ++ [name +:+ "_out"])
    | (Panic r, w1) => (Panic r, w1)
    end.

(** A terminal handler that appends its marker and returns nil. *)
Definition terminal_marker : HandlerFunc (list string) :=
  λ ctx data w, (Value None, w ++ ["terminal"]).

(** *** The [Logger] middleware *)

(** [err.Error()]: the messages the sentinels were made with. *)
Definition Error (e : error) : string :=
  match e with
  | ErrTimeout => "handler timeout"
  | ErrRateLimitExceeded => "rate limit exceeded"
  | ErrInvalidRequestData => "invalid request data"
  | ErrInternalError => "internal error"
  | ErrorString msg => msg
  end.

(** The levels of logrus the repository logs at. *)
Inductive Level : Type := ErrorLevel | WarnLevel | InfoLevel.

(** The values the repository puts into [logrus.Fields]. *)
Inductive field : Type :=
| FieldBool (b : bool)
| FieldInt (z : Z)
| FieldString (s : string)
| FieldTime (t : Time).

(** [logger.WithFields(fields).Log(level, msg)]; [WithFields] copies the
    map, so an entry holds the fields as they were at the call.
    [logger.Error(msg)] logs with no fields. *)
Class FieldLogger (W : Type) : Type :=
  Log : Level → gmap string field → string → W → W.

(** [d.Milliseconds()]: integer division, truncated. *)
Definition Milliseconds (d : Duration) : Z := d `quot` 1000000.

(** [w'] is [w] with log entries added, and nothing else done to it. *)
Inductive logged_from {W : Type} `{!FieldLogger W} (w : W) : W → Prop :=
| logged_refl : logged_from w w
| logged_step level fields msg w' :
    logged_from w w' → logged_from w (Log level fields msg w').

(** [Logger]; the name is taken by the class of the panic logger above. *)
Definition LoggerMiddleware {W : Type} `{!FieldLogger W} `{!Clock W}
  : Middleware W :=
  λ next ctx data w,
    match data with
    | NotRequest _ =>
        next ctx data
          (Log ErrorLevel ∅ "Invalid request data type in logging middleware" w)
    | NilRequest => (Panic nilDereference, w)
    | Request requestData =>
        let start := Now w in
        let fields : gmap string field :=
          <["username" := FieldString (Username requestData)]>
            (<["chat_id" := FieldInt (ChatID requestData)]>
               (<["user_id" := FieldInt (UserID requestData)]> ∅)) in
        let '(fields, w) :=
          match Message requestData with
          | Some message =>
              let fields :=
                <["message_id" := FieldInt (Tgbotapi.Message_MessageID message)]>
                  (<["text" := FieldString (Tgbotapi.Message_Text message)]> fields) in
              (fields, Log InfoLevel fields "Processing message" w)
          | None => (fields, w)
          end in
        let logged_callback :=
          match Callback requestData with
          | Some callback =>
              message ←! deref (Tgbotapi.CallbackQuery_Message callback);
              let fields :=
                <["message_id" := FieldInt (Tgbotapi.Message_MessageID message)]>
                  (<["callback_data" := FieldString (Tgbotapi.CallbackQuery_Data callback)]>
                     fields) in
              Value (fields, Log InfoLevel fields "Processing callback" w)
          | None => Value (fields, w)
          end in
        match logged_callback with
        | Panic r => (Panic r, w)
        | Value (fields, w) =>
            match next ctx data w with
            | (Panic r, w1) => (Panic r, w1)
            | (Value err, w1) =>
                let duration := Sub (Now w1) start in
                let fields :=
                  <["duration_ms" := FieldInt (Milliseconds duration)]> fields in
                match err with
                | Some e =>
                    (Value err,
                     Log ErrorLevel (<["error" := FieldString (Error e)]> fields)
                       "Request failed" w1)
                | None => (Value err, Log InfoLevel fields "Request completed" w1)
                end
            end
        end
    end.

(** A world for the logger: a clock and the entries logged so far. *)
Record LogWorld : Type := mkLogWorld {
  log_clock : Time;
  log_entries : list (Level * gmap string field * string)
}.

#[global] Instance LogWorld_logger : FieldLogger LogWorld :=
  λ level fields msg w,
    mkLogWorld (log_clock w) (log_entries w ++ [(level, fields, msg)]).

#[global] Instance LogWorld_clock : Clock LogWorld := log_clock.

(** On this world the panic logger writes an error entry too, with the
    recovered value under its key. *)
#[global] Instance LogWorld_panic_logger : Logger LogWorld :=
  λ key r msg w,
    let shown :=
      match r with
      | PanicError e => Error e
      | PanicOther v => v
      end in
    Log ErrorLevel (<[key := FieldString shown]> ∅) msg w.

(** A handler that panics with [r]. *)
Definition panicking_handler (r : panic_value) : HandlerFunc LogWorld :=
  λ ctx data w, (Panic r, w).

(** A handler that takes [elapsed] nanoseconds and returns [err]. *)
Definition slow_handler (elapsed : Duration) (err : option error)
  : HandlerFunc LogWorld :=
  λ ctx data w, (Value err, mkLogWorld (log_clock w + elapsed) (log_entries w)).

End Middleware.

(** ** Package [bot]: the rate limiter *)

Module Bot.
Import GoTime.

(** Go's [int] on the 64-bit targets the bot is built for. *)
Definition wrap_int (z : Z) : Z := (z + 2 ^ 63) `mod` 2 ^ 64 - 2 ^ 63.

Record UserLimit : Type := mkUserLimit {
  LastRequest : Time;
  Count : Z;
  Blocked : bool;
  BlockedAt : Time
}.

Definition set_LastRequest (t : Time) (l : UserLimit) : UserLimit :=
  mkUserLimit t (Count l) (Blocked l) (BlockedAt l).
Definition set_Count (c : Z) (l : UserLimit) : UserLimit :=
  mkUserLimit (LastRequest l) c (Blocked l) (BlockedAt l).
Definition set_Blocked (b : bool) (l : UserLimit) : UserLimit :=
  mkUserLimit (LastRequest l) (Count l) b (BlockedAt l).
Definition set_BlockedAt (t : Time) (l : UserLimit) : UserLimit :=
  mkUserLimit (LastRequest l) (Count l) (Blocked l) t.

#[global] Instance UserLimit_eq_dec : EqDecision UserLimit.
Proof. solve_decision. Defined.

(** [rl.limits], keyed by the [int64] user id. *)
Abbreviation limits_map := (gmap Z UserLimit).

(** The entry [Allow] stores for a user it has not seen. *)
Definition fresh_limit (now : Time) : UserLimit :=
  mkUserLimit now 1 false zeroTime.

(** The "Check if user is blocked" step: [None] is the early
    [return false]; otherwise the entry the rest of [Allow] goes on with. *)
Definition check_blocked (now : Time) (limit : UserLimit) : option UserLimit :=
  if Blocked limit then
    if 10 * Minute <? Sub now (BlockedAt limit)
    then Some (set_Count 0 (set_Blocked false limit))
    else None
  else Some limit.

(** "Reset counter if more than 1 minute has passed". *)
Definition reset_window (now : Time) (limit : UserLimit) : UserLimit :=
  if Minute <? Sub now (LastRequest limit)
  then set_LastRequest now (set_Count 0 limit)
  else limit.

(** "Increment counter". *)
Definition increment (now : Time) (limit : UserLimit) : UserLimit :=
  set_LastRequest now (set_Count (wrap_int (Count limit + 1)) limit).

(** [RateLimiter.Allow], with [now] the reading of [time.Now()]. *)
Definition Allow (now : Time) (userID : Z) (limits : limits_map)
  : bool * limits_map :=
  match limits !! userID with
  | None => (true, <[userID := fresh_limit now]> limits)
  | Some limit =>
      match check_blocked now limit with
      | None => (false, limits)
      | Some limit =>
          let limit := increment now (reset_window now limit) in
          if 20 <? Count limit
          then (false, <[userID := set_BlockedAt now (set_Blocked true limit)]> limits)
          else (true, <[userID := limit]> limits)
      end
  end.

(** [RateLimiter.GetUserLimit]: a copy of the entry, or nil. *)
Definition GetUserLimit (userID : Z) (limits : limits_map) : option UserLimit :=
  limits !! userID.

(** [RateLimiter.cleanup], with [now] the reading of [time.Now()]: one pass
    over the map, deleting while ranging.  The accumulator is the map
    being mutated. *)
Definition cleanup (now : Time) (limits : limits_map) : limits_map :=
  map_fold
    (λ userID limit acc,
       if Hour <? Sub now (LastRequest limit) then delete userID acc else acc)
    limits limits.

(** Clock readings that lie in one window of length [Minute] starting at
    [t0]. *)
Definition in_window (t0 : Time) (t : Time) : Prop := t0 ≤ t ≤ t0 + Minute.

(** Consecutive [Allow] calls for one user at the given clock readings. *)
Fixpoint AllowSeq (userID : Z) (times : list Time) (limits : limits_map)
  : list bool * limits_map :=
  match times with
  | [] => ([], limits)
  | now :: times' =>
      let '(ok, limits1) := Allow now userID limits in
      let '(oks, limits2) := AllowSeq userID times' limits1 in
      (ok :: oks, limits2)
  end.

(** *** The adapters of [middleware_adapters.go], over a concrete world

    The world holds the clock, the limiter's map, and what the test doubles
    of the middleware package record: the actions a [MockAuditLogger] was
    given, the panics the logger was told about, and how often the terminal
    handler ran. *)

Record World : Type := mkWorld {
  clock : Time;
  limiter : limits_map;
  actions : list string;
  logged : list Middleware.panic_value;
  handled : nat
}.

Definition set_limiter (limits : limits_map) (w : World) : World :=
  mkWorld (clock w) limits (actions w) (logged w) (handled w).

(** [RateLimiterAdapter.Allow] forwards to [RateLimiter.Allow]. *)
#[global] Instance RateLimiterAdapter : Middleware.RateLimiter World :=
  λ userID w,
    let '(ok, limits1) := Allow (clock w) userID (limiter w) in
    (ok, set_limiter limits1 w).

(** [MockAuditLogger.LogAction] appends the action. *)
#[global] Instance MockAuditLogger : Middleware.AuditLogger World :=
  λ userID action timestamp w,
    mkWorld (clock w) (limiter w) (actions w ++ [action]) (logged w) (handled w).

#[global] Instance WorldClock : Middleware.Clock World := clock.

#[global] Instance WorldLogger : Middleware.Logger World :=
  λ key r msg w,
    mkWorld (clock w) (limiter w) (actions w) (logged w ++ [r]) (handled w).

(** A terminal handler that counts its invocations and returns nil. *)
Definition counting_handler : Middleware.HandlerFunc World :=
  λ ctx data w,
    (Middleware.Value None,
     mkWorld (clock w) (limiter w) (actions w) (logged w) (S (handled w))).

(** *** Histories of the limiter *)

(** [NewRateLimiter] starts from an empty map. *)
Definition NewRateLimiter : limits_map := ∅.

(** Every map the limiter can hold: the empty one, and what [Allow] and
    the sweep make of a map it can hold, at any clock reading. *)
Inductive reachable : limits_map → Prop :=
| reachable_new : reachable NewRateLimiter
| reachable_Allow now userID limits :
    reachable limits → reachable (snd (Allow now userID limits))
| reachable_cleanup now limits :
    reachable limits → reachable (cleanup now limits).

(** What holds of every entry of such a map. *)
Definition entry_ok (limit : UserLimit) : Prop :=
  1 ≤ Count limit ≤ 21
  ∧ (Blocked limit = true ↔ Count limit = 21)
  ∧ (Blocked limit = true → BlockedAt limit = LastRequest limit).

(** Clock readings each at most a minute after the one before, starting
    after [prev]. *)
Fixpoint chained (prev : Time) (times : list Time) : Prop :=
  match times with
  | [] => True
  | t :: times' => t - prev ≤ Minute ∧ chained t times'
  end.

(** Clock readings each more than a minute after the one before. *)
Fixpoint spaced (prev : Time) (times : list Time) : Prop :=
  match times with
  | [] => True
  | t :: times' => Minute < t - prev ∧ spaced t times'
  end.

(** The three innermost layers [NewHandlerWithMiddleware] puts around the
    terminal handler, here around the counting one. *)
Definition counting_pipeline : Middleware.HandlerFunc World :=
  Middleware.Chain counting_handler
    [Middleware.Recovery; Middleware.RateLimit; Middleware.Audit].

(** The same request served [n] times in a row. *)
Fixpoint serve (handler : Middleware.HandlerFunc World) (n : nat)
    (data : Middleware.Data) (w : World)
  : list (Middleware.result (option Middleware.error)) * World :=
  match n with
  | O => ([], w)
  | S n' =>
      let '(r, w1) := handler Middleware.Background data w in
      let '(rs, w2) := serve handler n' data w1 in
      (r :: rs, w2)
  end.

(** *** The middleware-aware handler of [handler_middleware.go] *)

(** The two chains [NewHandlerWithMiddleware] stores.  The other fields of
    the struct (bot API, user service, logger) are reached only by the
    command handlers. *)
Record HandlerWithMiddleware (W : Type) : Type := mkHandlerWithMiddleware {
  messageHandler : Middleware.HandlerFunc W;
  callbackHandler : Middleware.HandlerFunc W
}.
Arguments mkHandlerWithMiddleware {W} _ _.
Arguments messageHandler {W} _.
Arguments callbackHandler {W} _.

(** [HandlerWithMiddleware.HandleUpdate].  The descriptor is built before
    the chain is entered. *)
Definition HandleUpdate {W : Type} (h : HandlerWithMiddleware W)
    (ctx : Middleware.Context) (update : Tgbotapi.Update) (w : W)
  : Middleware.result (option Middleware.error) * W :=
  match Tgbotapi.Update_Message update with
  | Some _ =>
      match Middleware.NewRequestDataFromUpdate update with
      | Middleware.Value requestData =>
          messageHandler h ctx (Middleware.Request requestData) w
      | Middleware.Panic r => (Middleware.Panic r, w)
      end
  | None => (Middleware.Value None, w)
  end.

(** [HandlerWithMiddleware.HandleCallback]: the callback query is wrapped
    into an update of its own. *)
Definition HandleCallback {W : Type} (h : HandlerWithMiddleware W)
    (ctx : Middleware.Context) (callback : option Tgbotapi.CallbackQuery) (w : W)
  : Middleware.result (option Middleware.error) * W :=
  let update := Tgbotapi.mkUpdate None callback None in
  match Middleware.NewRequestDataFromUpdate update with
  | Middleware.Value requestData =>
      callbackHandler h ctx (Middleware.Request requestData) w
  | Middleware.Panic r => (Middleware.Panic r, w)
  end.

(** [processUpdateWithMiddleware] of [cmd/bot]. *)
Definition processUpdateWithMiddleware {W : Type} (h : HandlerWithMiddleware W)
    (ctx : Middleware.Context) (update : Tgbotapi.Update) (w : W)
  : Middleware.result (option Middleware.error) * W :=
  match Tgbotapi.Update_CallbackQuery update with
  | Some callback => HandleCallback h ctx (Some callback) w
  | None =>
      match Tgbotapi.Update_Message update with
      | Some _ => HandleUpdate h ctx update w
      | None => (Middleware.Value None, w)
      end
  end.

(** The command handlers the two terminal handlers choose from; they talk
    to the user service and the bot API. *)
Record Commands (W : Type) : Type := mkCommands {
  handleStart : Middleware.Context → Tgbotapi.Message → W
                → Middleware.result (option Middleware.error) * W;
  handleAccount : Middleware.Context → Tgbotapi.Message → W
                  → Middleware.result (option Middleware.error) * W;
  handleHelp : Middleware.Context → Tgbotapi.Message → W
               → Middleware.result (option Middleware.error) * W;
  handleUnknownCommand : Middleware.Context → Tgbotapi.Message → W
                         → Middleware.result (option Middleware.error) * W;
  handleTrialCallback : Middleware.Context → Tgbotapi.CallbackQuery → W
                        → Middleware.result (option Middleware.error) * W;
  handleAccountCallback : Middleware.Context → Tgbotapi.CallbackQuery → W
                          → Middleware.result (option Middleware.error) * W;
  handleHelpCallback : Middleware.Context → Tgbotapi.CallbackQuery → W
                       → Middleware.result (option Middleware.error) * W;
  handleUnknownCallback : Middleware.Context → Tgbotapi.CallbackQuery → W
                          → Middleware.result (option Middleware.error) * W
}.
Arguments handleStart {W} _.
Arguments handleAccount {W} _.
Arguments handleHelp {W} _.
Arguments handleUnknownCommand {W} _.
Arguments handleTrialCallback {W} _.
Arguments handleAccountCallback {W} _.
Arguments handleHelpCallback {W} _.
Arguments handleUnknownCallback {W} _.

(** The [switch message.Text] of [handleMessageWithMiddleware]. *)
Definition switch_text {W : Type} (c : Commands W) (ctx : Middleware.Context)
    (message : Tgbotapi.Message) (w : W)
  : Middleware.result (option Middleware.error) * W :=
  if decide (Tgbotapi.Message_Text message = "/start") then handleStart c ctx message w
  else if decide (Tgbotapi.Message_Text message = "/account") then handleAccount c ctx message w
  else if decide (Tgbotapi.Message_Text message = "/help") then handleHelp c ctx message w
  else handleUnknownCommand c ctx message w.

(** The [switch callback.Data] of [handleCallbackWithMiddleware]. *)
Definition switch_data {W : Type} (c : Commands W) (ctx : Middleware.Context)
    (callback : Tgbotapi.CallbackQuery) (w : W)
  : Middleware.result (option Middleware.error) * W :=
  if decide (Tgbotapi.CallbackQuery_Data callback = "trial") then handleTrialCallback c ctx callback w
  else if decide (Tgbotapi.CallbackQuery_Data callback = "account") then handleAccountCallback c ctx callback w
  else if decide (Tgbotapi.CallbackQuery_Data callback = "help") then handleHelpCallback c ctx callback w
  else handleUnknownCallback c ctx callback w.

(** [handleMessageWithMiddleware]. *)
Definition handleMessageWithMiddleware {W : Type} (c : Commands W)
  : Middleware.HandlerFunc W :=
  λ ctx data w,
    match data with
    | Middleware.NotRequest _ =>
        (Middleware.Value (Some (Middleware.ErrorString "invalid request data type")), w)
    | Middleware.NilRequest => (Middleware.Panic Middleware.nilDereference, w)
    | Middleware.Request requestData =>
        match Middleware.Message requestData with
        | None =>
            (Middleware.Value (Some (Middleware.ErrorString "no message in request data")), w)
        | Some message => switch_text c ctx message w
        end
    end.

(** [handleCallbackWithMiddleware]. *)
Definition handleCallbackWithMiddleware {W : Type} (c : Commands W)
  : Middleware.HandlerFunc W :=
  λ ctx data w,
    match data with
    | Middleware.NotRequest _ =>
        (Middleware.Value (Some (Middleware.ErrorString "invalid request data type")), w)
    | Middleware.NilRequest => (Middleware.Panic Middleware.nilDereference, w)
    | Middleware.Request requestData =>
        match Middleware.Callback requestData with
        | None =>
            (Middleware.Value (Some (Middleware.ErrorString "no callback in request data")), w)
        | Some callback => switch_data c ctx callback w
        end
    end.

(** *** The audit logger of [audit_log.go] and its adapter *)

(** The values the audit logger puts into a [details] map. *)
Inductive detail : Type :=
| DetailString (s : string)
| DetailInt (z : Z)
| DetailTime (t : Time).

(** [json.Marshal] on a [details] map, with [None] for an error. *)
Class JSON : Type :=
  Marshal : gmap string detail → option string.

Section AuditLog.
Context {W : Type} `{!Middleware.FieldLogger W} `{!Middleware.Clock W} `{!JSON}.

(** [AuditLogger.LogEvent]; [details = None] is the nil map. *)
Definition LogEvent (userID : Z) (username action : string) (success : bool)
    (err : option Middleware.error) (details : option (gmap string detail))
    (w : W) : W :=
  let audit_Timestamp := Middleware.Now w in
  let audit_Error :=
    match err with
    | Some e => Middleware.Error e
    | None => ""
    end in
  let audit_Details :=
    match details with
    | Some d =>
        match Marshal d with
        | Some detailsJSON => detailsJSON
        | None => ""
        end
    | None => ""
    end in
  let fields : gmap string Middleware.field :=
    <["timestamp" := Middleware.FieldTime audit_Timestamp]>
      (<["success" := Middleware.FieldBool success]>
         (<["action" := Middleware.FieldString action]>
            (<["username" := Middleware.FieldString username]>
               (<["user_id" := Middleware.FieldInt userID]>
                  (<["audit" := Middleware.FieldBool true]> ∅))))) in
  let fields :=
    if decide (audit_Error = "") then fields
    else <["error" := Middleware.FieldString audit_Error]> fields in
  let fields :=
    if decide (audit_Details = "") then fields
    else <["details" := Middleware.FieldString audit_Details]> fields in
  let level := if success then Middleware.InfoLevel else Middleware.WarnLevel in
  Middleware.Log level fields "Audit event" w.

(** [AuditLogger.LogUserRegistration]. *)
Definition LogUserRegistration (userID : Z) (username firstName lastName : string)
    (success : bool) (err : option Middleware.error) (w : W) : W :=
  let details : gmap string detail :=
    <["event_type" := DetailString "registration"]>
      (<["last_name" := DetailString lastName]>
         (<["first_name" := DetailString firstName]> ∅)) in
  LogEvent userID username "user_registration" success err (Some details) w.

(** [AuditLogger.LogCommand]. *)
Definition LogCommand (userID : Z) (username command : string)
    (success : bool) (err : option Middleware.error) (w : W) : W :=
  let details : gmap string detail :=
    <["event_type" := DetailString "command"]>
      (<["command" := DetailString command]> ∅) in
  LogEvent userID username "command_execution" success err (Some details) w.

(** [AuditLogger.LogCallback]. *)
Definition LogCallback (userID : Z) (username callbackData : string)
    (success : bool) (err : option Middleware.error) (w : W) : W :=
  let details : gmap string detail :=
    <["event_type" := DetailString "callback"]>
      (<["callback_data" := DetailString callbackData]> ∅) in
  LogEvent userID username "callback_query" success err (Some details) w.

(** [AuditLogger.LogQuotaUsage]. *)
Definition LogQuotaUsage (userID : Z) (username : string) (quotaUsed : Z)
    (success : bool) (err : option Middleware.error) (w : W) : W :=
  let details : gmap string detail :=
    <["event_type" := DetailString "quota_usage"]>
      (<["quota_used" := DetailInt quotaUsed]> ∅) in
  LogEvent userID username "quota_usage" success err (Some details) w.

(** [AuditLogger.LogSecurityEvent]: a nil map is replaced by an empty one,
    and the event type is written over whatever the caller put there. *)
Definition LogSecurityEvent (userID : Z) (username eventType : string)
    (details : option (gmap string detail)) (w : W) : W :=
  let details := default ∅ details in
  let details := <["event_type" := DetailString "security"]> details in
  LogEvent userID username ("security_" +:+ eventType) true None (Some details) w.

(** [AuditLoggerAdapter.LogAction]. *)
Definition AuditLoggerAdapter : Middleware.AuditLogger W :=
  λ userID action timestamp w,
    let details : gmap string detail :=
      <["timestamp" := DetailTime timestamp]>
        (<["action" := DetailString action]> ∅) in
    LogSecurityEvent userID "" "user_action" (Some details) w.

End AuditLog.

(** A marshaller for examples: the keys of the map, joined by commas. *)
Definition join_keys : JSON :=
  λ details, Some (String.concat "," (fst <$> map_to_list details)).

(** *** A world for the assembled chain

    The clock, the limiter's map and the log.  The limiter is reached
    through [RateLimiterAdapter.Allow], the audit sink is
    [AuditLoggerAdapter] over the log, and the panic logger writes to the
    same log. *)

Record ChainWorld : Type := mkChainWorld {
  cw_clock : Time;
  cw_limiter : limits_map;
  cw_log : list (Middleware.Level * gmap string Middleware.field * string)
}.

#[global] Instance ChainWorld_clock : Middleware.Clock ChainWorld := cw_clock.

#[global] Instance ChainWorld_logger : Middleware.FieldLogger ChainWorld :=
  λ level fields msg w,
    mkChainWorld (cw_clock w) (cw_limiter w) (cw_log w ++ [(level, fields, msg)]).

#[global] Instance ChainWorld_panic_logger : Middleware.Logger ChainWorld :=
  λ key r msg w,
    let shown :=
      match r with
      | Middleware.PanicError e => Middleware.Error e
      | Middleware.PanicOther v => v
      end in
    Middleware.Log Middleware.ErrorLevel
      (<[key := Middleware.FieldString shown]> ∅) msg w.

#[global] Instance ChainWorld_limiter : Middleware.RateLimiter ChainWorld :=
  λ userID w,
    let '(ok, limits1) := Allow (cw_clock w) userID (cw_limiter w) in
    (ok, mkChainWorld (cw_clock w) limits1 (cw_log w)).

#[global] Instance ChainWorld_audit : Middleware.AuditLogger ChainWorld :=
  AuditLoggerAdapter (H1 := join_keys).

(** Command handlers that log which one ran. *)
Definition logging_commands : Commands ChainWorld :=
  mkCommands _
    (λ ctx message w, (Middleware.Value None,
                       Middleware.Log Middleware.InfoLevel ∅ "handleStart" w))
    (λ ctx message w, (Middleware.Value None,
                       Middleware.Log Middleware.InfoLevel ∅ "handleAccount" w))
    (λ ctx message w, (Middleware.Value None,
                       Middleware.Log Middleware.InfoLevel ∅ "handleHelp" w))
    (λ ctx message w, (Middleware.Value None,
                       Middleware.Log Middleware.InfoLevel ∅ "handleUnknownCommand" w))
    (λ ctx callback w, (Middleware.Value None,
                        Middleware.Log Middleware.InfoLevel ∅ "handleTrialCallback" w))
    (λ ctx callback w, (Middleware.Value None,
                        Middleware.Log Middleware.InfoLevel ∅ "handleAccountCallback" w))
    (λ ctx callback w, (Middleware.Value None,
                        Middleware.Log Middleware.InfoLevel ∅ "handleHelpCallback" w))
    (λ ctx callback w, (Middleware.Value None,
                        Middleware.Log Middleware.InfoLevel ∅ "handleUnknownCallback" w)).

(** A layer that, like [Timeout], hands its data on under a context it
    derived; it stands where [Timeout] stands in the examples. *)
Definition under_deadline (duration : Duration) : Middleware.Middleware ChainWorld :=
  λ next ctx data w, next (Middleware.WithTimeout ctx duration) data w.

End Bot.

(** ** Package [domain]: the user the handlers show and charge *)

Module Domain.
Import GoTime.

(** [int64] arithmetic wraps. *)
Definition wrap64 (z : Z) : Z := (z + 2 ^ 63) `mod` 2 ^ 64 - 2 ^ 63.

Definition maxInt64 : Z := 2 ^ 63 - 1.

(** The values a field of type [int64] can hold. *)
Definition is_int64 (z : Z) : Prop := - 2 ^ 63 ≤ z ≤ maxInt64.

Record User : Type := mkUser {
  ID : Z;
  TelegramID : Z;
  Username : string;
  FirstName : string;
  LastName : string;
  Status : string;
  QuotaLimit : Z;
  QuotaUsed : Z;
  CreatedAt : Time;
  UpdatedAt : Time
}.

Definition UserStatusInactive : string := "inactive".
Definition UserStatusTrial : string := "trial".
Definition UserStatusActive : string := "active".

(** 50MB in bytes. *)
Definition DefaultQuotaLimit : Z := 52428800.

(** The two error structs the user's methods return. *)
Inductive error : Type :=
| ValidationError (Field Message : string)
| QuotaExceededError (Used Limit : Z).

(** [NewUser], with [now] the reading of [time.Now()]. *)
Definition NewUser (now : Time) (telegramID : Z)
    (username firstName lastName : string) : User :=
  mkUser 0 telegramID username firstName lastName UserStatusInactive
    DefaultQuotaLimit 0 now now.

(** [User.ActivateTrial]. *)
Definition ActivateTrial (now : Time) (u : User) : User :=
  mkUser (ID u) (TelegramID u) (Username u) (FirstName u) (LastName u)
    UserStatusTrial (QuotaLimit u) (QuotaUsed u) (CreatedAt u) now.

(** [User.GetQuotaRemaining]. *)
Definition GetQuotaRemaining (u : User) : Z :=
  wrap64 (QuotaLimit u - QuotaUsed u).

(** [User.HasQuotaRemaining]. *)
Definition HasQuotaRemaining (u : User) : bool :=
  0 <? GetQuotaRemaining u.

(** [User.IsActive]. *)
Definition IsActive (u : User) : bool :=
  bool_decide (Status u = UserStatusActive)
  || bool_decide (Status u = UserStatusTrial).

(** [User.Validate]: the first check that fails decides the error. *)
Definition Validate (u : User) : option error :=
  if TelegramID u <=? 0
  then Some (ValidationError "telegram_id" "must be positive")
  else if bool_decide (FirstName u = "")
  then Some (ValidationError "first_name" "cannot be empty")
  else if bool_decide (Status u ≠ UserStatusInactive)
          && bool_decide (Status u ≠ UserStatusTrial)
          && bool_decide (Status u ≠ UserStatusActive)
  then Some (ValidationError "status" ("invalid status: " +:+ Status u))
  else if QuotaLimit u <? 0
  then Some (ValidationError "quota_limit" "cannot be negative")
  else if QuotaUsed u <? 0
  then Some (ValidationError "quota_used" "cannot be negative")
  else None.

(** [User.CanActivateTrial]. *)
Definition CanActivateTrial (u : User) : bool :=
  bool_decide (Status u = UserStatusInactive).

(** [User.CanUseQuota]. *)
Definition CanUseQuota (amount : Z) (u : User) : bool :=
  if negb (IsActive u) then false
  else if amount <=? 0 then false
  else amount <=? GetQuotaRemaining u.

(** [User.AddQuotaUsage], with [now] the reading of [time.Now()]: the error
    and the user as the call leaves it. *)
Definition AddQuotaUsage (now : Time) (amount : Z) (u : User)
  : option error * User :=
  if negb (CanUseQuota amount u)
  then (Some (QuotaExceededError (wrap64 (QuotaUsed u + amount)) (QuotaLimit u)), u)
  else (None,
        mkUser (ID u) (TelegramID u) (Username u) (FirstName u) (LastName u)
          (Status u) (QuotaLimit u) (wrap64 (QuotaUsed u + amount))
          (CreatedAt u) now).

(** Charges made one after the other; a refused charge leaves the user as
    it was. *)
Definition charge (now : Time) (amounts : list Z) (u : User) : User :=
  foldl (λ u amount, snd (AddQuotaUsage now amount u)) u amounts.

End Domain.

(** ** Package [utils]: the inline keyboards the handlers attach *)

Module Utils.

Local Open Scope nat_scope.

(** [tgbotapi.InlineKeyboardButton], as [NewInlineKeyboardButtonData] fills
    it: the caption and the callback data. *)
Record InlineKeyboardButton : Type := NewInlineKeyboardButtonData {
  Text : string;
  CallbackData : string
}.

#[global] Instance InlineKeyboardButton_eq_dec : EqDecision InlineKeyboardButton.
Proof. solve_decision. Defined.

(** The zero button, empty caption and no callback data, which fills the
    spare cells of a grown array. *)
Definition zeroButton : InlineKeyboardButton := NewInlineKeyboardButtonData "" "".

(** The heap of button arrays.  The address of an array is its index;
    allocating appends, so a new array has an address no slice holds. *)
Abbreviation Heap := (list (list InlineKeyboardButton)).

(** A slice [[]tgbotapi.InlineKeyboardButton]: the array it points into and
    at which cell, its length, and its capacity from that cell on.  Slices
    copied from one another share the array. *)
Record Slice : Type := mkSlice {
  array : nat;
  off : nat;
  len : nat;
  cap : nat
}.

(** A nil slice, or the empty literal: no length, no capacity; its [array]
    is never looked at. *)
Definition emptySlice : Slice := mkSlice 0 0 0 0.

(** The elements of a slice.  (No slice of a Go program dangles; for one
    that would, nothing is read.) *)
Definition read (h : Heap) (s : Slice) : list InlineKeyboardButton :=
  match h !! array s with
  | Some cells => take (len s) (drop (off s) cells)
  | None => []
  end.

(** The capacity the runtime chooses when [append] has to grow a slice of
    capacity [oldCap] to hold [needed] elements: at least [needed]. *)
Class Runtime : Type := {
  growslice : nat → nat → nat;
  growslice_fits : ∀ oldCap needed, needed ≤ growslice oldCap needed
}.

(** [append(s, x)]: with spare capacity the element is written into the
    array of [s], in the cell after its last, and the slice returned shares
    that array; without, the elements are copied to a new array. *)
Definition append `{!Runtime} (s : Slice) (x : InlineKeyboardButton) (h : Heap)
  : Slice * Heap :=
  if decide (len s < cap s)
  then (mkSlice (array s) (off s) (S (len s)) (cap s),
        alter (λ cells, <[(off s + len s)%nat := x]> cells) (array s) h)
  else
    let newCap := growslice (cap s) (S (len s)) in
    (mkSlice (length h) 0 (S (len s)) newCap,
     h ++ [read h s ++ x :: replicate (newCap - S (len s)) zeroButton]).

(** The slice a call site passes for a variadic parameter when the
    arguments are written out: a new array holding just them, or nil when
    there are none. *)
Definition variadic (buttons : list InlineKeyboardButton) (h : Heap)
  : Slice * Heap :=
  match buttons with
  | [] => (emptySlice, h)
  | _ => (mkSlice (length h) 0 (length buttons) (length buttons), h ++ [buttons])
  end.

(** [KeyboardBuilder]: its [rows], a slice header per row.  The outer slice
    is the builder's own, and every [append] to it is stored back, so it is
    a list here; the rows keep their arrays. *)
Definition KeyboardBuilder : Type := list Slice.

Definition NewKeyboardBuilder : KeyboardBuilder := [].

(** [KeyboardBuilder.AddRow]: the slice passed becomes the row, array and
    all. *)
Definition AddRow (buttons : Slice) (kb : KeyboardBuilder) : KeyboardBuilder :=
  kb ++ [buttons].

(** [KeyboardBuilder.AddButton]: a builder without rows gets an empty one
    first; the button is appended to the last row, in place where the row
    has capacity left. *)
Definition AddButton `{!Runtime} (button : InlineKeyboardButton)
    (kb : KeyboardBuilder) (h : Heap) : KeyboardBuilder * Heap :=
  let rows := if decide (length kb = 0%nat) then kb ++ [emptySlice] else kb in
  let lastRowIndex := (length rows - 1)%nat in
  match rows !! lastRowIndex with
  | Some row =>
      let '(row', h') := append row button h in
      (<[lastRowIndex := row']> rows, h')
  | None => (rows, h)
  end.

(** [KeyboardBuilder.Build]: the markup holds the rows' slices. *)
Definition Build (kb : KeyboardBuilder) : list Slice := kb.

(** The rows of a markup, read in a heap. *)
Definition InlineKeyboard (h : Heap) (markup : list Slice)
  : list (list InlineKeyboardButton) :=
  read h <$> markup.

Definition markup_rows (r : list Slice * Heap)
  : list (list InlineKeyboardButton) :=
  InlineKeyboard (snd r) (fst r).

(** [kb.AddRow(b1, ..., bn)], the buttons written out at the call as in
    every call of the repository. *)
Definition AddRow_args (buttons : list InlineKeyboardButton)
    (st : KeyboardBuilder * Heap) : KeyboardBuilder * Heap :=
  let '(row, h) := variadic buttons (snd st) in (AddRow row (fst st), h).

(** The keyboards: each function run in a heap, then the rows of its
    markup, which are the same in every heap
    ([UtilsProps.keyboards_in_any_heap]). *)
Definition CreateMainKeyboard_in (h : Heap) : list Slice * Heap :=
  let '(kb, h) :=
    AddRow_args [NewInlineKeyboardButtonData "❓ Help" "help"]
      (AddRow_args [NewInlineKeyboardButtonData "🔑 Get Free Trial" "trial";
                    NewInlineKeyboardButtonData "⚙️ My Account" "account"]
         (NewKeyboardBuilder, h)) in
  (Build kb, h).

Definition CreateMainKeyboard : list (list InlineKeyboardButton) :=
  markup_rows (CreateMainKeyboard_in []).

Definition CreateAccountKeyboard_in (h : Heap) : list Slice * Heap :=
  let '(kb, h) :=
    AddRow_args [NewInlineKeyboardButtonData "⬅️ Back to Main" "main"]
      (AddRow_args [NewInlineKeyboardButtonData "📊 Usage Stats" "usage";
                    NewInlineKeyboardButtonData "🔧 Settings" "settings"]
         (NewKeyboardBuilder, h)) in
  (Build kb, h).

Definition CreateAccountKeyboard : list (list InlineKeyboardButton) :=
  markup_rows (CreateAccountKeyboard_in []).

Definition CreateHelpKeyboard_in (h : Heap) : list Slice * Heap :=
  let '(kb, h) :=
    AddRow_args [NewInlineKeyboardButtonData "⬅️ Back to Main" "main"]
      (AddRow_args [NewInlineKeyboardButtonData "📖 FAQ" "faq";
                    NewInlineKeyboardButtonData "📞 Support" "support"]
         (NewKeyboardBuilder, h)) in
  (Build kb, h).

Definition CreateHelpKeyboard : list (list InlineKeyboardButton) :=
  markup_rows (CreateHelpKeyboard_in []).

Definition CreateTrialKeyboard_in (h : Heap) : list Slice * Heap :=
  let '(kb, h) :=
    AddRow_args [NewInlineKeyboardButtonData "⬅️ Back to Main" "main"]
      (AddRow_args [NewInlineKeyboardButtonData "✅ Activate Trial" "activate_trial"]
         (NewKeyboardBuilder, h)) in
  (Build kb, h).

Definition CreateTrialKeyboard : list (list InlineKeyboardButton) :=
  markup_rows (CreateTrialKeyboard_in []).

Definition CreateConfirmationKeyboard_in (action : string) (h : Heap)
  : list Slice * Heap :=
  let '(kb, h) :=
    AddRow_args [NewInlineKeyboardButtonData "✅ Yes" ("confirm_" +:+ action);
                 NewInlineKeyboardButtonData "❌ No" ("cancel_" +:+ action)]
      (NewKeyboardBuilder, h) in
  (Build kb, h).

Definition CreateConfirmationKeyboard (action : string)
  : list (list InlineKeyboardButton) :=
  markup_rows (CreateConfirmationKeyboard_in action []).

Definition CreateBackKeyboard_in (backAction : string) (h : Heap)
  : list Slice * Heap :=
  let '(kb, h) :=
    AddRow_args [NewInlineKeyboardButtonData "⬅️ Back" backAction]
      (NewKeyboardBuilder, h) in
  (Build kb, h).

Definition CreateBackKeyboard (backAction : string)
  : list (list InlineKeyboardButton) :=
  markup_rows (CreateBackKeyboard_in backAction []).

Definition CreateEmptyKeyboard : list (list InlineKeyboardButton) := [].

(** The calls made on a builder, in order: [AddRow] with its buttons
    written out, or [AddButton]. *)
Inductive step : Type :=
| Row (buttons : list InlineKeyboardButton)
| Button (button : InlineKeyboardButton).

Definition apply_step `{!Runtime} (st : KeyboardBuilder * Heap) (s : step)
  : KeyboardBuilder * Heap :=
  match s with
  | Row buttons => AddRow_args buttons st
  | Button button => AddButton button (fst st) (snd st)
  end.

Definition buttons_of (s : step) : list InlineKeyboardButton :=
  match s with
  | Row buttons => buttons
  | Button button => [button]
  end.

(** A slice is well formed in a heap when its window lies inside its
    array. *)
Definition wf (h : Heap) (s : Slice) : Prop :=
  len s ≤ cap s
  ∧ (0 < cap s → ∃ cells, h !! array s = Some cells ∧ off s + cap s ≤ length cells).

(** The arrays the rows of a builder point into. *)
Definition owned (kb : KeyboardBuilder) : list nat :=
  omap (λ s, if decide (0 < cap s) then Some (array s) else None) kb.

(** No two rows of the builder share an array. *)
Definition inv (h : Heap) (kb : KeyboardBuilder) : Prop :=
  Forall (wf h) kb ∧ NoDup (owned kb).

(** A growth policy: twice the old capacity, or what is needed if that is
    more. *)
#[local] Program Instance doubling : Runtime := {|
  growslice oldCap needed := Nat.max needed (2 * oldCap)
|}.
Next Obligation. intros oldCap needed. apply Nat.le_max_l. Qed.

(** The keyboards the middleware-aware handlers attach to a reply, each
    with the name of the function that sends it. *)
Definition keyboards_sent : list (string * list (list InlineKeyboardButton)) :=
  [("handleStart", CreateMainKeyboard);
   ("handleAccount", CreateAccountKeyboard);
   ("handleHelp", CreateHelpKeyboard);
   ("handleUnknownCommand", CreateMainKeyboard);
   ("handleTrialCallback", CreateTrialKeyboard);
   ("handleAccountCallback", CreateAccountKeyboard);
   ("handleHelpCallback", CreateBackKeyboard "main")].

End Utils.

(** * Properties *)

(** ** Durations *)

Module GoTimeFacts.
Import GoTime.

Lemma Minute_ns : Minute = 60000000000.
Proof. reflexivity. Qed.

Lemma Hour_ns : Hour = 3600000000000.
Proof. reflexivity. Qed.

Lemma Sub_exact t u :
  minDuration ≤ t - u ≤ maxDuration → Sub t u = t - u.
Proof.
  intros [Hlo Hhi]. unfold Sub.
  destruct (Z.ltb_spec (t - u) minDuration); [lia|].
  destruct (Z.ltb_spec maxDuration (t - u)); [lia|]. reflexivity.
Qed.

(** Saturation never changes on which side of a representable bound the
    difference lies. *)
Lemma Sub_gt t u (d : Duration) :
  minDuration ≤ d < maxDuration → (d < Sub t u ↔ d < t - u).
Proof.
  intros [Hlo Hhi]. unfold Sub.
  destruct (Z.ltb_spec (t - u) minDuration); [lia|].
  destruct (Z.ltb_spec maxDuration (t - u)); lia.
Qed.

Lemma bound_representable (d : Duration) :
  0 ≤ d ≤ Hour → minDuration ≤ d < maxDuration.
Proof. rewrite Hour_ns. unfold minDuration, maxDuration. lia. Qed.

Lemma Sub_ltb t u (d : Duration) :
  0 ≤ d ≤ Hour → (d <? Sub t u) = (d <? t - u).
Proof.
  intros Hd. pose proof (Sub_gt t u d (bound_representable d Hd)) as Hiff.
  destruct (Z.ltb_spec d (Sub t u)), (Z.ltb_spec d (t - u)); lia.
Qed.

End GoTimeFacts.

(** ** The rate limiter *)

Module BotFacts.
Import GoTime GoTimeFacts Bot.

Lemma wrap_int_small z : - 2 ^ 63 ≤ z < 2 ^ 63 → wrap_int z = z.
Proof. intros Hz. unfold wrap_int. rewrite Z.mod_small; lia. Qed.

Lemma in_window_no_reset t0 t u :
  in_window t0 t → in_window t0 u → (Minute <? Sub t u) = false.
Proof.
  unfold in_window. intros Ht Hu.
  rewrite Sub_ltb by (rewrite Minute_ns, Hour_ns; lia).
  apply Z.ltb_ge. lia.
Qed.

(** A user's first request creates the entry. *)
Lemma Allow_fresh now userID (limits : limits_map) :
  limits !! userID = None →
  Allow now userID limits = (true, <[userID := fresh_limit now]> limits).
Proof. intros Hnone. unfold Allow. by rewrite Hnone. Qed.

(** The blocked branch returns before anything is written. *)
Lemma Allow_blocked now userID (limits : limits_map) limit :
  limits !! userID = Some limit →
  Blocked limit = true →
  now - BlockedAt limit ≤ 10 * Minute →
  Allow now userID limits = (false, limits).
Proof.
  intros Hlk Hb Hle. unfold Allow, check_blocked. rewrite Hlk, Hb.
  rewrite Sub_ltb by (rewrite Minute_ns, Hour_ns; lia).
  destruct (Z.ltb_spec (10 * Minute) (now - BlockedAt limit)); [lia | reflexivity].
Qed.

(** An expired block is lifted and the request counted as the first of a
    new window. *)
Lemma Allow_block_expired now userID (limits : limits_map) limit :
  limits !! userID = Some limit →
  Blocked limit = true →
  10 * Minute < now - BlockedAt limit →
  Allow now userID limits
  = (true, <[userID := mkUserLimit now 1 false (BlockedAt limit)]> limits).
Proof.
  intros Hlk Hb Hgt. unfold Allow, check_blocked. rewrite Hlk, Hb.
  rewrite Sub_ltb by (rewrite Minute_ns, Hour_ns; lia).
  destruct (Z.ltb_spec (10 * Minute) (now - BlockedAt limit)); [|lia].
  unfold reset_window, increment.
  by destruct (Minute <? _).
Qed.

(** An admitted request inside the window bumps the counter. *)
Lemma Allow_counts t0 now userID (limits : limits_map) limit :
  limits !! userID = Some limit →
  Blocked limit = false →
  in_window t0 (LastRequest limit) → in_window t0 now →
  0 ≤ Count limit < 20 →
  Allow now userID limits
  = (true, <[userID := mkUserLimit now (Count limit + 1) false (BlockedAt limit)]> limits).
Proof.
  intros Hlk Hb Hlast Hnow Hc. unfold Allow, check_blocked. rewrite Hlk, Hb.
  unfold reset_window. rewrite (in_window_no_reset t0) by done.
  unfold increment. cbn.
  rewrite wrap_int_small by lia.
  destruct (Z.ltb_spec 20 (Count limit + 1)); [lia|].
  by rewrite <- Hb.
Qed.

(** The request that finds the counter at 20 inside the window is refused
    and blocks the user. *)
Lemma Allow_overflow t0 now userID (limits : limits_map) limit :
  limits !! userID = Some limit →
  Blocked limit = false →
  in_window t0 (LastRequest limit) → in_window t0 now →
  Count limit = 20 →
  Allow now userID limits
  = (false, <[userID := mkUserLimit now 21 true now]> limits).
Proof.
  intros Hlk Hb Hlast Hnow Hc. unfold Allow, check_blocked. rewrite Hlk, Hb.
  unfold reset_window. rewrite (in_window_no_reset t0) by done.
  unfold increment. cbn. rewrite Hc.
  by rewrite wrap_int_small by lia.
Qed.

Lemma AllowSeq_app userID times1 times2 (limits : limits_map) :
  AllowSeq userID (times1 ++ times2) limits
  = (fst (AllowSeq userID times1 limits)
       ++ fst (AllowSeq userID times2 (snd (AllowSeq userID times1 limits))),
     snd (AllowSeq userID times2 (snd (AllowSeq userID times1 limits)))).
Proof.
  revert limits. induction times1 as [|now times1 IH]; intros limits; cbn.
  - by destruct (AllowSeq userID times2 limits).
  - destruct (Allow now userID limits) as [ok limits1].
    rewrite IH. by destruct (AllowSeq userID times1 limits1).
Qed.

(** Requests inside the window that keep the counter at or below 20 are
    all admitted. *)
Lemma AllowSeq_counts t0 userID times :
  ∀ (limits : limits_map) limit,
    limits !! userID = Some limit →
    Blocked limit = false →
    in_window t0 (LastRequest limit) →
    Forall (in_window t0) times →
    0 ≤ Count limit →
    Count limit + Z.of_nat (length times) ≤ 20 →
    AllowSeq userID times limits
    = (replicate (length times) true,
       <[userID := mkUserLimit (default (LastRequest limit) (last times))
                     (Count limit + Z.of_nat (length times)) false
                     (BlockedAt limit)]> limits).
Proof.
  induction times as [|now times IH]; intros limits limit Hlk Hb Hlast Hall H0 Hle.
  - cbn. rewrite Z.add_0_r. f_equal. rewrite insert_id; [done|].
    rewrite Hlk. f_equal. destruct limit; cbn in *; by subst.
  - apply Forall_cons in Hall as [Hnow Hall]. cbn [length] in Hle.
    cbn [AllowSeq]. rewrite (Allow_counts t0 now userID limits limit) by (done || lia).
    erewrite IH; [| apply lookup_insert_eq | done .. | cbn; lia | cbn; lia ].
    cbn. rewrite insert_insert_eq. f_equal. f_equal. f_equal.
    + rewrite last_cons. by destruct (last times).
    + lia.
Qed.


(** The first twenty requests of a new user inside one window are admitted,
    the twenty-first is refused and blocks. *)
Lemma AllowSeq_threshold t0 userID times t21 (limits : limits_map) :
  limits !! userID = None →
  length times = 20%nat →
  Forall (in_window t0) times → in_window t0 t21 →
  AllowSeq userID (times ++ [t21]) limits
  = (replicate 20 true ++ [false],
     <[userID := mkUserLimit t21 21 true t21]> limits).
Proof.
  intros Hnone Hlen Hall H21.
  destruct times as [|t1 times]; [done|].
  apply Forall_cons in Hall as [H1 Hall]. cbn in Hlen.
  rewrite <- app_comm_cons. cbn [AllowSeq].
  rewrite Allow_fresh by done. rewrite AllowSeq_app.
  rewrite (AllowSeq_counts t0 userID times _ (fresh_limit t1));
    [ | apply lookup_insert_eq | done .. | cbn; lia ].
  cbn [fst snd AllowSeq]. rewrite insert_insert_eq.
  erewrite (Allow_overflow t0 t21);
    [ | apply lookup_insert_eq | done | | done | cbn; lia ].
  - rewrite insert_insert_eq.
    by replace (length times) with 19%nat by lia.
  - cbn. destruct (last times) as [t|] eqn:Hl; cbn; [|done].
    eapply Forall_forall; [exact Hall|]. by apply last_Some_elem_of.
Qed.

(** While the block lasts every retry is refused and nothing changes. *)
Lemma AllowSeq_blocked userID retries :
  ∀ (limits : limits_map) limit,
    limits !! userID = Some limit →
    Blocked limit = true →
    Forall (λ t, t - BlockedAt limit ≤ 10 * Minute) retries →
    AllowSeq userID retries limits = (replicate (length retries) false, limits).
Proof.
  induction retries as [|t retries IH]; intros limits limit Hlk Hb Hall; [done|].
  apply Forall_cons in Hall as [Ht Hall]. cbn [AllowSeq].
  rewrite (Allow_blocked t userID limits limit) by done.
  by rewrite (IH limits limit).
Qed.

(** What one pass of the sweep leaves of a map [m] in the accumulator. *)
Lemma cleanup_fold_lookup now (acc0 m : limits_map) k :
  map_fold
    (λ userID limit acc,
       if Hour <? Sub now (LastRequest limit) then delete userID acc else acc)
    acc0 m !! k
  = match m !! k with
    | Some limit =>
        if Hour <? Sub now (LastRequest limit) then None else acc0 !! k
    | None => acc0 !! k
    end.
Proof.
  revert k.
  apply (map_fold_weak_ind
           (λ (r m : limits_map), ∀ k,
              r !! k = match m !! k with
                       | Some limit =>
                           if Hour <? Sub now (LastRequest limit)
                           then None else acc0 !! k
                       | None => acc0 !! k
                       end)).
  - intros k. by rewrite lookup_empty.
  - intros i x m' r Hnone IH k.
    destruct (decide (i = k)) as [->|Hne].
    + rewrite lookup_insert_eq.
      destruct (Hour <? Sub now (LastRequest x)).
      * by rewrite lookup_delete_eq.
      * by rewrite IH, Hnone.
    + rewrite lookup_insert_ne by done.
      destruct (Hour <? Sub now (LastRequest x)); [rewrite lookup_delete_ne by done|];
        apply IH.
Qed.

(** The sweep keeps exactly the entries seen within the last hour. *)
Lemma cleanup_lookup now (limits : limits_map) k :
  cleanup now limits !! k
  = match limits !! k with
    | Some limit => if Hour <? now - LastRequest limit then None else Some limit
    | None => None
    end.
Proof.
  unfold cleanup. rewrite cleanup_fold_lookup.
  destruct (limits !! k) as [limit|]; [|done].
  by rewrite Sub_ltb by (rewrite Hour_ns; lia).
Qed.

Lemma cleanup_delete_stale now (limits : limits_map) userID limit :
  limits !! userID = Some limit →
  Hour < now - LastRequest limit →
  cleanup now limits = cleanup now (delete userID limits).
Proof.
  intros Hlk Hold. apply map_eq. intros k. rewrite !cleanup_lookup.
  destruct (decide (userID = k)) as [<-|Hne].
  - rewrite Hlk, lookup_delete_eq.
    by destruct (Z.ltb_spec Hour (now - LastRequest limit)); [|lia].
  - by rewrite lookup_delete_ne.
Qed.


Ltac window_facts :=
  repeat first
    [ apply Forall_nil_2
    | apply Forall_cons_2
    | progress (unfold in_window; rewrite ?Minute_ns;
                unfold Second, Nanosecond; cbn; lia) ].

(** C1.  A user without an entry makes 21 consecutive [Allow] calls whose
    clock readings all lie in one 60-second window: calls 1 to 20 return
    true, call 21 returns false and leaves the user's entry blocked, with
    [BlockedAt] the reading of call 21. *)
Theorem Allow_admission_threshold t0 userID times t21 (limits : limits_map) :
  limits !! userID = None →
  length times = 20%nat →
  Forall (in_window t0) times → in_window t0 t21 →
  fst (AllowSeq userID (times ++ [t21]) limits) = replicate 20 true ++ [false]
  ∧ GetUserLimit userID (snd (AllowSeq userID (times ++ [t21]) limits))
    = Some (mkUserLimit t21 21 true t21).
Proof.
  intros Hnone Hlen Hall H21.
  rewrite (AllowSeq_threshold t0) by done. cbn [fst snd]. split; [done|].
  unfold GetUserLimit. apply lookup_insert_eq.
Qed.

Lemma Allow_admission_threshold_witness :
  let times := (λ i, 1000 + i * Second) <$> seqZ 0 20 in
  let t21 := 1000 + 20 * Second in
  fst (AllowSeq 7 (times ++ [t21]) ∅) = replicate 20 true ++ [false]
  ∧ GetUserLimit 7 (snd (AllowSeq 7 (times ++ [t21]) ∅))
    = Some (mkUserLimit t21 21 true t21).
Proof.
  intros times t21.
  apply (Allow_admission_threshold 1000 7 times t21 ∅);
    [ apply lookup_empty | reflexivity | | subst t21; window_facts ].
  apply Forall_fmap, Forall_seqZ. intros i Hi.
  unfold in_window, compose. rewrite Minute_ns. unfold Second, Nanosecond. lia.
Defined.

(** C2, as stated, fails at exactly ten minutes: the unblocking test is
    strict, so a call made 10 minutes to the nanosecond after the blocking
    call is still refused. *)
Lemma Allow_ten_minutes_after_block_refused :
  let times := replicate 20 1000 in
  let t21 := 1000 in
  let blocked := snd (AllowSeq 7 (times ++ [t21]) ∅) in
  let now := t21 + 10 * Minute in
  GetUserLimit 7 blocked = Some (mkUserLimit t21 21 true t21)
  ∧ 10 * Minute ≤ now - t21
  ∧ Allow now 7 blocked = (false, blocked).
Proof. by vm_compute. Qed.

(** C2, amended.  After the rejection at call 21, and whatever refused
    retries follow while the block lasts, the call made more than ten
    minutes after the blocking call returns true and leaves the entry
    unblocked with the count restarted at 1. *)
Theorem Allow_block_expiry t0 userID times t21 retries now (limits : limits_map) :
  limits !! userID = None →
  length times = 20%nat →
  Forall (in_window t0) times → in_window t0 t21 →
  Forall (λ t, t - t21 ≤ 10 * Minute) retries →
  10 * Minute < now - t21 →
  let blocked := snd (AllowSeq userID (times ++ [t21] ++ retries) limits) in
  fst (Allow now userID blocked) = true
  ∧ GetUserLimit userID (snd (Allow now userID blocked))
    = Some (mkUserLimit now 1 false t21).
Proof.
  intros Hnone Hlen Hall H21 Hretries Hnow blocked. subst blocked.
  rewrite app_assoc, AllowSeq_app, (AllowSeq_threshold t0) by done.
  cbn [fst snd].
  rewrite (AllowSeq_blocked userID retries _ (mkUserLimit t21 21 true t21))
    by (done || apply lookup_insert_eq).
  cbn [snd].
  rewrite (Allow_block_expired now userID _ (mkUserLimit t21 21 true t21))
    by (done || apply lookup_insert_eq).
  cbn [fst snd BlockedAt]. split; [done|].
  unfold GetUserLimit. apply lookup_insert_eq.
Qed.

Lemma Allow_block_expiry_witness :
  let times := replicate 20 1000 in
  let t21 := 1000 in
  let retries := [t21 + Minute; t21 + 10 * Minute] in
  let now := t21 + 10 * Minute + 1 in
  let blocked := snd (AllowSeq 7 (times ++ [t21] ++ retries) ∅) in
  fst (Allow now 7 blocked) = true
  ∧ GetUserLimit 7 (snd (Allow now 7 blocked)) = Some (mkUserLimit now 1 false t21).
Proof.
  intros times t21 retries now.
  apply (Allow_block_expiry 1000 7 times t21 retries now ∅);
    [ apply lookup_empty | reflexivity | window_facts | window_facts
    | repeat (apply Forall_cons_2 || apply Forall_nil_2);
        subst retries t21; rewrite Minute_ns; lia
    | subst now t21; rewrite Minute_ns; lia ].
Defined.

(** C10.  A call that finds the user blocked with the block not yet expired
    is refused and writes nothing: the user's entry keeps all four fields
    and every other entry is as before. *)
Theorem Allow_blocked_frame now userID (limits : limits_map) limit :
  GetUserLimit userID limits = Some limit →
  Blocked limit = true →
  now - BlockedAt limit ≤ 10 * Minute →
  fst (Allow now userID limits) = false
  ∧ GetUserLimit userID (snd (Allow now userID limits)) = Some limit
  ∧ snd (Allow now userID limits) = limits.
Proof.
  intros Hlk Hb Hle. unfold GetUserLimit in *.
  by rewrite (Allow_blocked now userID limits limit).
Qed.

Lemma Allow_blocked_frame_witness :
  let limit := mkUserLimit 5000 21 true 5000 in
  let limits : limits_map := <[7 := limit]> (<[8 := fresh_limit 4000]> ∅) in
  let now := 5000 + 10 * Minute in
  fst (Allow now 7 limits) = false
  ∧ GetUserLimit 7 (snd (Allow now 7 limits)) = Some limit
  ∧ snd (Allow now 7 limits) = limits.
Proof.
  intros limit limits now.
  apply (Allow_blocked_frame now 7 limits limit);
    [ reflexivity | reflexivity | subst now limit; cbn; lia ].
Defined.

(** C8.  The sweep removes the entry of a user last seen more than an hour
    ago, whatever its count and blocked flag; the swept map is the one the
    sweep yields when the user never had an entry, and the user's next call
    returns true and stores a new entry with count 1. *)
Theorem cleanup_then_Allow_fresh now now' userID (limits : limits_map) limit :
  GetUserLimit userID limits = Some limit →
  Hour < now - LastRequest limit →
  GetUserLimit userID (cleanup now limits) = None
  ∧ cleanup now limits = cleanup now (delete userID limits)
  ∧ fst (Allow now' userID (cleanup now limits)) = true
  ∧ GetUserLimit userID (snd (Allow now' userID (cleanup now limits)))
    = Some (mkUserLimit now' 1 false zeroTime).
Proof.
  intros Hlk Hold. unfold GetUserLimit in *.
  assert (cleanup now limits !! userID = None) as Hgone.
  { rewrite cleanup_lookup, Hlk.
    by destruct (Z.ltb_spec Hour (now - LastRequest limit)); [|lia]. }
  split; [done|]. split; [by eapply cleanup_delete_stale|].
  rewrite Allow_fresh by done. cbn [fst snd]. split; [done|].
  apply lookup_insert_eq.
Qed.

Lemma cleanup_then_Allow_fresh_witness :
  let limit := mkUserLimit 5000 21 true 5000 in
  let limits : limits_map := <[7 := limit]> (<[8 := fresh_limit 4000]> ∅) in
  let now := 5000 + Hour + 1 in
  let now' := now + Second in
  GetUserLimit 7 (cleanup now limits) = None
  ∧ cleanup now limits = cleanup now (delete 7 limits)
  ∧ fst (Allow now' 7 (cleanup now limits)) = true
  ∧ GetUserLimit 7 (snd (Allow now' 7 (cleanup now limits)))
    = Some (mkUserLimit now' 1 false zeroTime).
Proof.
  intros limit limits now now'.
  apply (cleanup_then_Allow_fresh now now' 7 limits limit);
    [ reflexivity | subst now limit; cbn; lia ].
Defined.

End BotFacts.

(** ** The middleware package *)

Module MiddlewareFacts.
Import GoTime Middleware.

Section Generic.
Context {W : Type}.
Implicit Types (handler next : HandlerFunc W) (middlewares : list (Middleware W)).

(** After the iterations for indices [n-1] down to [0] the handler is
    wrapped by the first [n] middlewares, the first one outermost. *)
Lemma Chain_loop_take middlewares n :
  ∀ handler,
    (n ≤ length middlewares)%nat →
    Chain_loop middlewares n handler
    = foldr (λ m next, m next) handler (take n middlewares).
Proof.
  induction n as [|i IH]; intros handler Hn; [by rewrite take_0|].
  cbn [Chain_loop].
  destruct (middlewares !! i) as [m|] eqn:Hm.
  - rewrite IH by lia. erewrite (take_S_r middlewares) by exact Hm.
    by rewrite foldr_app.
  - apply lookup_ge_None in Hm. unfold Middleware in *. lia.
Qed.

Lemma Chain_foldr handler middlewares :
  Chain handler middlewares = foldr (λ m next, m next) handler middlewares.
Proof.
  unfold Chain. rewrite Chain_loop_take by done. by rewrite firstn_all.
Qed.

Lemma Chain_split handler (outer inner : list (Middleware W)) :
  Chain handler (outer ++ inner) = Chain (Chain handler inner) outer.
Proof. by rewrite !Chain_foldr, foldr_app. Qed.

(** [Recovery] never panics. *)
Lemma Recovery_returns `{!Logger W} next ctx data w :
  ∃ err, fst (Recovery next ctx data w) = Value err.
Proof.
  unfold Recovery. destruct (next ctx data w) as [[err|[e|v]] w1]; cbn; eauto.
Qed.

Lemma Recovery_forwards `{!Logger W} : forwards_descriptor Recovery.
Proof. intros next next' data Heq ctx w. unfold Recovery. by rewrite Heq. Qed.

Lemma RateLimit_forwards `{!RateLimiter W} : forwards_descriptor RateLimit.
Proof.
  intros next next' data Heq ctx w. unfold RateLimit.
  destruct data as [requestData| |v]; [|done..].
  destruct (Allow (UserID requestData) w) as [[] w1]; cbn; [apply Heq|done].
Qed.

Lemma Audit_forwards `{!AuditLogger W} `{!Clock W} : forwards_descriptor Audit.
Proof.
  intros next next' data Heq ctx w. unfold Audit.
  destruct data as [requestData| |v]; [apply Heq|done..].
Qed.

Lemma Logger_forwards `{!FieldLogger W} `{!Clock W} :
  forwards_descriptor LoggerMiddleware.
Proof.
  intros next next' data Heq ctx w. unfold LoggerMiddleware.
  destruct data as [requestData| |v]; [|done|apply Heq].
  destruct (Message requestData) as [message|];
    (destruct (Callback requestData) as [callback|];
     [destruct (Tgbotapi.CallbackQuery_Message callback) as [origin|]|]);
    cbn; by rewrite ?Heq.
Qed.

(** The terminal handler of a chain of forwarding middlewares is consulted
    at the chain's own data only. *)
Lemma Chain_forwards middlewares :
  Forall forwards_descriptor middlewares →
  ∀ next next' data,
    (∀ ctx w, next ctx data w = next' ctx data w) →
    ∀ ctx w, Chain next middlewares ctx data w = Chain next' middlewares ctx data w.
Proof.
  intros Hall next next' data. rewrite !Chain_foldr.
  induction Hall as [|m middlewares Hm Hall IH]; intros Heq; [done|].
  cbn [foldr]. apply Hm, IH, Heq.
Qed.

End Generic.


(** C3.  [Chain h [m1; ...; mN]] is [m1 (m2 (... (mN h)))]: the first
    middleware is outermost.  With four middlewares that append a marker
    before and after delegating, around a terminal handler that appends its
    own, the markers come out as L_in, R_in, T_in, A_in, terminal, A_out,
    T_out, R_out, L_out. *)
Theorem Chain_first_is_outermost :
  (∀ (W : Type) (handler : HandlerFunc W) (middlewares : list (Middleware W)),
     Chain handler middlewares = foldr (λ m next, m next) handler middlewares)
  ∧ (∀ (W : Type) (handler : HandlerFunc W) (m1 m2 m3 m4 : Middleware W),
       Chain handler [m1; m2; m3; m4] = m1 (m2 (m3 (m4 handler))))
  ∧ (∀ ctx data trace,
       Chain terminal_marker [marker "L"; marker "R"; marker "T"; marker "A"]
         ctx data trace
       = (Value None,
          trace ++ ["L_in"; "R_in"; "T_in"; "A_in"; "terminal";
                    "A_out"; "T_out"; "R_out"; "L_out"])).
Proof.
  split; [|split].
  - intros W handler middlewares. apply Chain_foldr.
  - intros W handler m1 m2 m3 m4. by rewrite Chain_foldr.
  - intros ctx data trace. rewrite Chain_foldr. cbn.
    by rewrite <- !app_assoc.
Qed.

(** C4.  Around any inner handler, [Recovery] returns the inner result
    unchanged when the inner call returns (nil or an error), returns the
    carried error when the inner call panics with an error, and returns
    [ErrInternalError] when it panics with any other value; in no case does
    the panic escape. *)
Theorem Recovery_conversion {W : Type} `{!Logger W}
    (next : HandlerFunc W) ctx data w :
  match next ctx data w with
  | (Value err, w1) => Recovery next ctx data w = (Value err, w1)
  | (Panic (PanicError panicErr), _) =>
      fst (Recovery next ctx data w) = Value (Some panicErr)
  | (Panic (PanicOther _), _) =>
      fst (Recovery next ctx data w) = Value (Some ErrInternalError)
  end
  ∧ ∃ err, fst (Recovery next ctx data w) = Value err.
Proof.
  split; [|apply Recovery_returns].
  unfold Recovery. by destruct (next ctx data w) as [[err|[e|v]] w1].
Qed.

(** C6.  When the limiter refuses the request's user, [RateLimit] returns
    [ErrRateLimitExceeded] in the world the limiter left, whatever the
    inner handler is: the inner handler is not run. *)
Theorem RateLimit_rejection {W : Type} `{!RateLimiter W}
    (next : HandlerFunc W) ctx requestData w :
  fst (Allow (UserID requestData) w) = false →
  RateLimit next ctx (Request requestData) w
  = (Value (Some ErrRateLimitExceeded), snd (Allow (UserID requestData) w))
  ∧ ∀ next' : HandlerFunc W,
      RateLimit next' ctx (Request requestData) w
      = RateLimit next ctx (Request requestData) w.
Proof.
  intros Hno. unfold RateLimit.
  destruct (Allow (UserID requestData) w) as [ok w1]. cbn in Hno. by subst ok.
Qed.

(** A blocked user, and an update of theirs. *)
Lemma RateLimit_rejection_witness :
  let blocked := Bot.mkUserLimit 5000 21 true 5000 in
  let w := Bot.mkWorld 6000 (<[7 := blocked]> ∅) [] [] 0 in
  let requestData :=
    mkRequestData (Tgbotapi.mkUpdate None None None) None None 7 7 "user" in
  RateLimit Bot.counting_handler Background (Request requestData) w
  = (Value (Some ErrRateLimitExceeded), snd (Allow (UserID requestData) w))
  ∧ ∀ next' : HandlerFunc Bot.World,
      RateLimit next' Background (Request requestData) w
      = RateLimit Bot.counting_handler Background (Request requestData) w.
Proof.
  intros blocked w requestData.
  apply (RateLimit_rejection Bot.counting_handler Background requestData w).
  reflexivity.
Defined.

(** Through the pipeline with the real limiter: of 21 requests in a row the
    terminal handler and the audit sink see the first 20. *)
Example counting_pipeline_21 :
  let message := Tgbotapi.mkMessage 1 None None "/start" in
  let requestData :=
    mkRequestData (Tgbotapi.mkUpdate (Some message) None None)
      (Some message) None 7 9 "user" in
  let run := Bot.serve Bot.counting_pipeline 21 (Request requestData)
               (Bot.mkWorld 6000 ∅ [] [] 0) in
  fst run = replicate 20 (Value None) ++ [Value (Some ErrRateLimitExceeded)]
  ∧ Bot.handled (snd run) = 20%nat
  ∧ Bot.actions (snd run) = replicate 20 "message:/start".
Proof. by vm_compute. Qed.

(** C9.  For a descriptor with exactly one variant, [Audit] first gives the
    sink the user id, the label "message:" + text or "callback:" + payload,
    and the clock reading, and then delegates: its result is the inner
    handler's result in the world the sink left, whatever the sink does
    with the record. *)
Theorem Audit_records_then_delegates {W : Type} `{!AuditLogger W} `{!Clock W}
    (next : HandlerFunc W) ctx requestData w :
  exactly_one (Message requestData) (Callback requestData) →
  ∃ action,
    (∀ message, Message requestData = Some message →
       action = "message:" +:+ Tgbotapi.Message_Text message)
    ∧ (∀ callback, Callback requestData = Some callback →
         action = "callback:" +:+ Tgbotapi.CallbackQuery_Data callback)
    ∧ Audit next ctx (Request requestData) w
      = next ctx (Request requestData)
          (LogAction (UserID requestData) action (Now w) w).
Proof.
  intros Hone. exists (audit_action requestData). unfold Audit, audit_action.
  destruct Hone as [[[message Hm] Hc]|[Hm [callback Hc]]]; rewrite Hm, Hc.
  - split; [by intros ? [= <-]|]. split; [by intros ? [=]|done].
  - split; [by intros ? [=]|]. split; [by intros ? [= <-]|done].
Qed.

Lemma Audit_records_then_delegates_witness :
  let callback := Tgbotapi.mkCallbackQuery None None "trial" in
  let requestData :=
    mkRequestData (Tgbotapi.mkUpdate None (Some callback) None)
      None (Some callback) 7 9 "user" in
  let w := Bot.mkWorld 6000 ∅ [] [] 0 in
  ∃ action,
    (∀ message, Message requestData = Some message →
       action = "message:" +:+ Tgbotapi.Message_Text message)
    ∧ (∀ callback, Callback requestData = Some callback →
         action = "callback:" +:+ Tgbotapi.CallbackQuery_Data callback)
    ∧ Audit Bot.counting_handler Background (Request requestData) w
      = Bot.counting_handler Background (Request requestData)
          (LogAction (UserID requestData) action (Now w) w).
Proof.
  intros callback requestData w.
  apply (Audit_records_then_delegates Bot.counting_handler Background requestData w).
  right. split; [reflexivity | eexists; reflexivity].
Defined.

End MiddlewareFacts.

(** ** More on the rate limiter *)

Module RateLimiterProps.
Import GoTime GoTimeFacts Bot BotFacts.

(** [Allow] writes at most the caller's entry. *)
Lemma Allow_lookup_other now userID other (limits : limits_map) :
  userID ≠ other →
  snd (Allow now userID limits) !! other = limits !! other.
Proof.
  intros Hne. unfold Allow.
  destruct (limits !! userID) as [limit|]; cbn; [|by rewrite lookup_insert_ne].
  destruct (check_blocked now limit) as [limit'|]; cbn; [|done].
  destruct (20 <? _); cbn; by rewrite lookup_insert_ne.
Qed.

(** [Allow] reads only the caller's entry. *)
Lemma Allow_local now userID (limits1 limits2 : limits_map) :
  limits1 !! userID = limits2 !! userID →
  fst (Allow now userID limits1) = fst (Allow now userID limits2)
  ∧ snd (Allow now userID limits1) !! userID
    = snd (Allow now userID limits2) !! userID.
Proof.
  intros Heq. unfold Allow. rewrite <- Heq.
  destruct (limits1 !! userID) as [limit|] eqn:Hlk; cbn;
    [|by rewrite !lookup_insert_eq].
  destruct (check_blocked now limit) as [limit'|]; cbn; [|by rewrite <- Heq].
  destruct (20 <? _); cbn; by rewrite !lookup_insert_eq.
Qed.

(** After any call the caller has an entry, and the entry is blocked
    exactly when the call was refused. *)
Lemma Allow_entry_after now userID (limits : limits_map) :
  ∃ limit, snd (Allow now userID limits) !! userID = Some limit
           ∧ fst (Allow now userID limits) = negb (Blocked limit).
Proof.
  unfold Allow. destruct (limits !! userID) as [limit|] eqn:Hlk; cbn.
  - unfold check_blocked.
    destruct (Blocked limit) eqn:Hb.
    + destruct (10 * Minute <? Sub now (BlockedAt limit)); cbn.
      * destruct (20 <? _) eqn:Hc; cbn; rewrite lookup_insert_eq;
          eexists; split; try reflexivity.
        unfold reset_window. by destruct (Minute <? _).
      * exists limit. by rewrite Hb.
    + destruct (20 <? _) eqn:Hc; cbn; rewrite lookup_insert_eq;
        eexists; split; try reflexivity.
      cbn. unfold reset_window. destruct (Minute <? _); cbn; by rewrite Hb.
  - rewrite lookup_insert_eq. by eexists.
Qed.

(** A request within a minute of the last one bumps the counter. *)
Lemma Allow_gap_counts now userID (limits : limits_map) limit :
  limits !! userID = Some limit →
  Blocked limit = false →
  now - LastRequest limit ≤ Minute →
  0 ≤ Count limit < 20 →
  Allow now userID limits
  = (true, <[userID := mkUserLimit now (Count limit + 1) false (BlockedAt limit)]> limits).
Proof.
  intros Hlk Hb Hgap Hc. unfold Allow, check_blocked. rewrite Hlk, Hb.
  unfold reset_window. rewrite Sub_ltb by (rewrite Minute_ns, Hour_ns; lia).
  destruct (Z.ltb_spec Minute (now - LastRequest limit)); [lia|].
  unfold increment. cbn. rewrite wrap_int_small by lia.
  destruct (Z.ltb_spec 20 (Count limit + 1)); [lia|].
  by rewrite <- Hb.
Qed.

Lemma Allow_gap_overflow now userID (limits : limits_map) limit :
  limits !! userID = Some limit →
  Blocked limit = false →
  now - LastRequest limit ≤ Minute →
  Count limit = 20 →
  Allow now userID limits
  = (false, <[userID := mkUserLimit now 21 true now]> limits).
Proof.
  intros Hlk Hb Hgap Hc. unfold Allow, check_blocked. rewrite Hlk, Hb.
  unfold reset_window. rewrite Sub_ltb by (rewrite Minute_ns, Hour_ns; lia).
  destruct (Z.ltb_spec Minute (now - LastRequest limit)); [lia|].
  unfold increment. cbn. rewrite Hc. by rewrite wrap_int_small by lia.
Qed.

(** A request more than a minute after the last one starts a new count,
    whatever the old one was. *)
Lemma Allow_window_reset now userID (limits : limits_map) limit :
  limits !! userID = Some limit →
  Blocked limit = false →
  Minute < now - LastRequest limit →
  Allow now userID limits
  = (true, <[userID := mkUserLimit now 1 false (BlockedAt limit)]> limits).
Proof.
  intros Hlk Hb Hgap. unfold Allow, check_blocked. rewrite Hlk, Hb.
  unfold reset_window. rewrite Sub_ltb by (rewrite Minute_ns, Hour_ns; lia).
  destruct (Z.ltb_spec Minute (now - LastRequest limit)); [|lia].
  unfold increment. cbn. by rewrite <- Hb.
Qed.

Lemma chained_app prev times1 times2 :
  chained prev (times1 ++ times2)
  ↔ chained prev times1 ∧ chained (default prev (last times1)) times2.
Proof.
  revert prev. induction times1 as [|t times1 IH]; intros prev; cbn; [tauto|].
  rewrite IH, last_cons. destruct (last times1); cbn; tauto.
Qed.

Lemma AllowSeq_chained userID times :
  ∀ (limits : limits_map) limit,
    limits !! userID = Some limit →
    Blocked limit = false →
    chained (LastRequest limit) times →
    0 ≤ Count limit →
    Count limit + Z.of_nat (length times) ≤ 20 →
    AllowSeq userID times limits
    = (replicate (length times) true,
       <[userID := mkUserLimit (default (LastRequest limit) (last times))
                     (Count limit + Z.of_nat (length times)) false
                     (BlockedAt limit)]> limits).
Proof.
  induction times as [|now times IH]; intros limits limit Hlk Hb Hch H0 Hle.
  - cbn. rewrite Z.add_0_r. f_equal. rewrite insert_id; [done|].
    rewrite Hlk. f_equal. destruct limit; cbn in *; by subst.
  - destruct Hch as [Hgap Hch]. cbn [length] in Hle. cbn [AllowSeq].
    rewrite (Allow_gap_counts now userID limits limit) by (done || lia).
    erewrite IH; [| apply lookup_insert_eq | done .. | cbn; lia | cbn; lia ].
    cbn. rewrite insert_insert_eq. f_equal. f_equal. f_equal.
    + rewrite last_cons. by destruct (last times).
    + lia.
Qed.

Lemma AllowSeq_spaced userID times :
  ∀ (limits : limits_map) limit,
    limits !! userID = Some limit →
    Blocked limit = false →
    Count limit = 1 →
    spaced (LastRequest limit) times →
    AllowSeq userID times limits
    = (replicate (length times) true,
       <[userID := mkUserLimit (default (LastRequest limit) (last times))
                     1 false (BlockedAt limit)]> limits).
Proof.
  induction times as [|now times IH]; intros limits limit Hlk Hb Hc Hsp.
  - cbn. f_equal. rewrite insert_id; [done|].
    rewrite Hlk. f_equal. destruct limit; cbn in *; by subst.
  - destruct Hsp as [Hgap Hsp]. cbn [AllowSeq].
    rewrite (Allow_window_reset now userID limits limit) by done.
    erewrite IH; [| apply lookup_insert_eq | done .. ].
    cbn. rewrite insert_insert_eq. f_equal. f_equal. f_equal.
    rewrite last_cons. by destruct (last times).
Qed.


Lemma fresh_limit_ok now : entry_ok (fresh_limit now).
Proof. unfold entry_ok, fresh_limit. cbn. repeat split; (lia || done). Qed.

(** One call keeps every entry well formed. *)
Lemma Allow_entry_ok now userID (limits : limits_map) :
  map_Forall (λ _ limit, entry_ok limit) limits →
  map_Forall (λ _ limit, entry_ok limit) (snd (Allow now userID limits)).
Proof.
  intros Hall. unfold Allow.
  destruct (limits !! userID) as [limit|] eqn:Hlk; cbn.
  2:{ apply map_Forall_insert_2; [apply fresh_limit_ok | done]. }
  pose proof (Hall _ _ Hlk) as (Hrange & Hblk & Hat).
  assert (∀ limit', Blocked limit' = false → 0 ≤ Count limit' ≤ 20 →
            map_Forall (λ _ limit, entry_ok limit)
              (snd (let limit := increment now (reset_window now limit') in
                    if 20 <? Count limit
                    then (false, <[userID := set_BlockedAt now (set_Blocked true limit)]> limits)
                    else (true, <[userID := limit]> limits)))) as Hstep.
  { intros limit' Hb' Hc'. cbn zeta.
    assert (1 ≤ Count (increment now (reset_window now limit')) ≤ 21
            ∧ Blocked (increment now (reset_window now limit')) = false
            ∧ LastRequest (increment now (reset_window now limit')) = now)
      as (Hc & Hb & Hl).
    { unfold reset_window, increment.
      destruct (Minute <? _); cbn; rewrite wrap_int_small by lia;
        repeat split; (lia || done). }
    remember (increment now (reset_window now limit')) as limit1.
    destruct (Z.ltb_spec 20 (Count limit1)); cbn [snd];
      (apply map_Forall_insert_2; [|done]); unfold entry_ok;
      cbn [Count Blocked BlockedAt LastRequest set_BlockedAt set_Blocked].
    - split; [lia|]. split; [|by rewrite Hl]. split; intros; (lia || done).
    - rewrite Hb. split; [lia|]. split; [|done]. split; intros; (lia || done). }
  unfold check_blocked. destruct (Blocked limit) eqn:Hb.
  - destruct (10 * Minute <? Sub now (BlockedAt limit)); [|done].
    apply (Hstep (set_Count 0 (set_Blocked false limit))); cbn; (done || lia).
  - apply (Hstep limit); [done|].
    assert (Count limit ≠ 21) by (intros Hc; apply Hblk in Hc; congruence). lia.
Qed.

Lemma cleanup_entry_ok now (limits : limits_map) :
  map_Forall (λ _ limit, entry_ok limit) limits →
  map_Forall (λ _ limit, entry_ok limit) (cleanup now limits).
Proof.
  intros Hall k limit. rewrite cleanup_lookup.
  destruct (limits !! k) as [limit'|] eqn:Hlk; [|done].
  destruct (Hour <? _); [done|]. intros [= <-]. by eapply Hall.
Qed.

Lemma reachable_entry_ok (limits : limits_map) :
  reachable limits → map_Forall (λ _ limit, entry_ok limit) limits.
Proof.
  induction 1 as [|now userID limits _ IH|now limits _ IH].
  - apply map_Forall_empty.
  - by apply Allow_entry_ok.
  - by apply cleanup_entry_ok.
Qed.

Lemma reachable_AllowSeq userID times :
  ∀ limits : limits_map,
    reachable limits → reachable (snd (AllowSeq userID times limits)).
Proof.
  induction times as [|now times IH]; intros limits Hreach; [done|].
  cbn [AllowSeq].
  pose proof (reachable_Allow now userID limits Hreach) as Hstep.
  destruct (Allow now userID limits) as [ok limits1].
  specialize (IH limits1 Hstep).
  by destruct (AllowSeq userID times limits1).
Qed.

(** X1.  Users do not interfere: a call for one user leaves every other
    user's entry as it was, so the other user's next call gives the answer,
    and leaves the entry, it would have given without it. *)
Theorem Allow_independent_users nowA nowB userA userB (limits : limits_map) :
  userA ≠ userB →
  GetUserLimit userB (snd (Allow nowA userA limits)) = GetUserLimit userB limits
  ∧ fst (Allow nowB userB (snd (Allow nowA userA limits)))
    = fst (Allow nowB userB limits)
  ∧ GetUserLimit userB (snd (Allow nowB userB (snd (Allow nowA userA limits))))
    = GetUserLimit userB (snd (Allow nowB userB limits)).
Proof.
  intros Hne. unfold GetUserLimit.
  pose proof (Allow_lookup_other nowA userA userB limits Hne) as Hother.
  split; [done|]. by apply Allow_local.
Qed.

Lemma Allow_independent_users_witness :
  let limits : limits_map :=
    <[7 := mkUserLimit 5000 20 false 0]> (<[8 := mkUserLimit 5000 20 false 0]> ∅) in
  GetUserLimit 8 (snd (Allow 5001 7 limits)) = GetUserLimit 8 limits
  ∧ fst (Allow 5002 8 (snd (Allow 5001 7 limits))) = fst (Allow 5002 8 limits)
  ∧ GetUserLimit 8 (snd (Allow 5002 8 (snd (Allow 5001 7 limits))))
    = GetUserLimit 8 (snd (Allow 5002 8 limits)).
Proof.
  intros limits. apply (Allow_independent_users 5001 5002 7 8 limits). lia.
Defined.

(** X2.  In any state and at any clock reading, a call leaves the caller
    with an entry, and it returns true exactly when that entry is not
    blocked afterwards. *)
Theorem Allow_true_iff_unblocked now userID (limits : limits_map) :
  ∃ limit,
    GetUserLimit userID (snd (Allow now userID limits)) = Some limit
    ∧ (fst (Allow now userID limits) = true ↔ Blocked limit = false).
Proof.
  destruct (Allow_entry_after now userID limits) as (limit & Hlk & Hres).
  exists limit. split; [done|]. rewrite Hres. by destruct (Blocked limit).
Qed.

(** X3.  Requests of a new user that come more than a minute apart are all
    admitted, however many there are, and the count stays at 1. *)
Theorem Allow_spaced_requests userID t1 times (limits : limits_map) :
  limits !! userID = None →
  spaced t1 times →
  fst (AllowSeq userID (t1 :: times) limits) = replicate (S (length times)) true
  ∧ GetUserLimit userID (snd (AllowSeq userID (t1 :: times) limits))
    = Some (mkUserLimit (default t1 (last times)) 1 false zeroTime).
Proof.
  intros Hnone Hsp. cbn [AllowSeq]. rewrite Allow_fresh by done.
  rewrite (AllowSeq_spaced userID times _ (fresh_limit t1))
    by (done || apply lookup_insert_eq).
  cbn. split; [done|]. unfold GetUserLimit. by rewrite lookup_insert_eq.
Qed.

Lemma Allow_spaced_requests_witness :
  let times := [1000 + 61 * Second; 1000 + 122 * Second; 1000 + 200 * Second] in
  fst (AllowSeq 7 (1000 :: times) ∅) = replicate (S (length times)) true
  ∧ GetUserLimit 7 (snd (AllowSeq 7 (1000 :: times) ∅))
    = Some (mkUserLimit (default 1000 (last times)) 1 false zeroTime).
Proof.
  intros times. apply (Allow_spaced_requests 7 1000 times ∅).
  - apply lookup_empty.
  - cbn. rewrite Minute_ns. unfold Second, Nanosecond. lia.
Defined.

(** X4.  The window slides with the last request: when each request of a
    new user comes at most a minute after the one before, the first twenty
    are admitted and the twenty-first is refused and blocks the user, even
    if the twenty-one requests span twenty minutes. *)
Theorem Allow_chained_requests userID t1 times t21 (limits : limits_map) :
  limits !! userID = None →
  length times = 19%nat →
  chained t1 (times ++ [t21]) →
  fst (AllowSeq userID (t1 :: times ++ [t21]) limits) = replicate 20 true ++ [false]
  ∧ GetUserLimit userID (snd (AllowSeq userID (t1 :: times ++ [t21]) limits))
    = Some (mkUserLimit t21 21 true t21).
Proof.
  intros Hnone Hlen Hch. apply chained_app in Hch as [Hch [Hlast _]].
  cbn [AllowSeq]. rewrite Allow_fresh by done. rewrite AllowSeq_app.
  rewrite (AllowSeq_chained userID times _ (fresh_limit t1));
    [ | apply lookup_insert_eq | done .. | cbn; lia ].
  cbn [fst snd AllowSeq]. rewrite insert_insert_eq.
  erewrite (Allow_gap_overflow t21);
    [ | apply lookup_insert_eq | done | cbn; exact Hlast | cbn; lia ].
  rewrite insert_insert_eq. cbn [fst snd]. unfold GetUserLimit.
  rewrite lookup_insert_eq. by replace (length times) with 19%nat by lia.
Qed.

Lemma Allow_chained_requests_witness :
  let times := (λ i, 1000 + i * Minute) <$> seqZ 1 19 in
  let t21 := 1000 + 20 * Minute in
  fst (AllowSeq 7 (1000 :: times ++ [t21]) ∅) = replicate 20 true ++ [false]
  ∧ GetUserLimit 7 (snd (AllowSeq 7 (1000 :: times ++ [t21]) ∅))
    = Some (mkUserLimit t21 21 true t21).
Proof.
  intros times t21. apply (Allow_chained_requests 7 1000 times t21 ∅).
  - apply lookup_empty.
  - reflexivity.
  - subst times t21. vm_compute. repeat split; discriminate.
Defined.

(** X5.  The sweep keeps an entry, untouched, exactly when its last request
    is at most one hour old; an entry exactly one hour old stays. *)
Theorem cleanup_keeps_recent now userID (limits : limits_map) :
  GetUserLimit userID (cleanup now limits)
  = match GetUserLimit userID limits with
    | Some limit =>
        if bool_decide (now - LastRequest limit ≤ Hour) then Some limit else None
    | None => None
    end.
Proof.
  unfold GetUserLimit. rewrite cleanup_lookup.
  destruct (limits !! userID) as [limit|]; [|done].
  destruct (Z.ltb_spec Hour (now - LastRequest limit)).
  - by rewrite bool_decide_eq_false_2 by lia.
  - by rewrite bool_decide_eq_true_2 by lia.
Qed.

(** X6.  In every map the limiter can reach from [NewRateLimiter], each
    entry has a count between 1 and 21, is blocked exactly when the count
    is 21, and if blocked was blocked at its last request; the counter
    never wraps. *)
Theorem reachable_entries_ok (limits : limits_map) userID limit :
  reachable limits →
  GetUserLimit userID limits = Some limit →
  1 ≤ Count limit ≤ 21
  ∧ (Blocked limit = true ↔ Count limit = 21)
  ∧ (Blocked limit = true → BlockedAt limit = LastRequest limit).
Proof.
  intros Hreach Hlk. exact (reachable_entry_ok limits Hreach userID limit Hlk).
Qed.

Lemma reachable_entries_ok_witness :
  let limits := cleanup 9000 (snd (AllowSeq 7 (replicate 21 1000) NewRateLimiter)) in
  let limit := mkUserLimit 1000 21 true 1000 in
  1 ≤ Count limit ≤ 21
  ∧ (Blocked limit = true ↔ Count limit = 21)
  ∧ (Blocked limit = true → BlockedAt limit = LastRequest limit).
Proof.
  intros limits limit. apply (reachable_entries_ok limits 7 limit).
  - apply reachable_cleanup, reachable_AllowSeq, reachable_new.
  - by vm_compute.
Defined.


(** X7.  [Allow] never drops an entry: after a call the map has the entries
    it had and one for the caller.  Only the sweep removes entries, and it
    adds none. *)
Theorem Allow_grows_cleanup_shrinks now userID (limits : limits_map) :
  dom (snd (Allow now userID limits)) = {[userID]} ∪ dom limits
  ∧ dom (cleanup now limits) ⊆ dom limits.
Proof.
  split.
  - unfold Allow. destruct (limits !! userID) as [limit|] eqn:Hlk; cbn;
      [|by rewrite dom_insert_L].
    assert (userID ∈ dom limits) as Hin by (apply elem_of_dom; eauto).
    destruct (check_blocked now limit) as [limit'|]; cbn;
      [|apply set_eq; intros k; rewrite elem_of_union, elem_of_singleton;
        split; [tauto | by intros [->|?]]].
    destruct (20 <? _); cbn; by rewrite dom_insert_L.
  - intros k [limit Hk]%elem_of_dom. rewrite cleanup_lookup in Hk.
    apply elem_of_dom. destruct (limits !! k); [eauto|done].
Qed.

(** X8.  The sweep never lifts a block early: in a map the limiter can
    reach, a blocked entry that the sweep removes was blocked more than an
    hour before, so its ten minutes are over. *)
Theorem cleanup_never_unblocks_early now userID (limits : limits_map) limit :
  reachable limits →
  GetUserLimit userID limits = Some limit →
  Blocked limit = true →
  GetUserLimit userID (cleanup now limits) = None →
  Hour < now - BlockedAt limit ∧ 10 * Minute < now - BlockedAt limit.
Proof.
  unfold GetUserLimit. intros Hreach Hlk Hb Hgone.
  destruct (reachable_entry_ok limits Hreach userID limit Hlk) as (_ & _ & Hat).
  rewrite cleanup_lookup, Hlk in Hgone. rewrite (Hat Hb).
  destruct (Z.ltb_spec Hour (now - LastRequest limit)); [|done].
  rewrite Hour_ns, Minute_ns in *. lia.
Qed.

Lemma cleanup_never_unblocks_early_witness :
  let limits := snd (AllowSeq 7 (replicate 21 1000) NewRateLimiter) in
  let limit := mkUserLimit 1000 21 true 1000 in
  let now := 1001 + Hour in
  Hour < now - BlockedAt limit ∧ 10 * Minute < now - BlockedAt limit.
Proof.
  intros limits limit now.
  apply (cleanup_never_unblocks_early now 7 limits limit).
  - apply reachable_AllowSeq, reachable_new.
  - by vm_compute.
  - reflexivity.
  - by vm_compute.
Defined.

End RateLimiterProps.

(** ** More on the middleware package *)

Module MiddlewareProps.
Import GoTime Middleware MiddlewareFacts.

(** X9.  Chains compose: wrapping with no middleware changes nothing, and
    wrapping with two lists in a row is wrapping with the second, then with
    the first around it. *)
Theorem Chain_app :
  ∀ (W : Type) (handler : HandlerFunc W) (outer inner : list (Middleware W)),
    Chain handler [] = handler
    ∧ Chain handler (outer ++ inner) = Chain (Chain handler inner) outer.
Proof.
  intros W handler outer inner. split; [done|].
  by rewrite !Chain_foldr, foldr_app.
Qed.

(** X10.  [NewRequestDataFromUpdate] returns a descriptor exactly when every
    pointer it follows is set; when the sender or the chat of the message,
    or the sender, the message or the message's chat of the callback query
    is nil, it panics with a nil pointer dereference. *)
Theorem NewRequestDataFromUpdate_panics_iff_nil update :
  match NewRequestDataFromUpdate update with
  | Value _ => pointers_present update
  | Panic r => r = nilDereference ∧ ¬ pointers_present update
  end.
Proof.
  unfold NewRequestDataFromUpdate, pointers_present.
  destruct update as [[[mid [from|] [chat|] text]|] [[[cfrom|] [[cmid cmfrom [cchat|] ctext]|] cdata]|] other];
    cbn.
  all: try (split; [reflexivity|]; intros [Hmsg Hcb]).
  all: try (split; intros ? [= <-]; cbn; eauto).
  all: try (destruct (Hmsg _ eq_refl) as [[? Hf] [? Hc]]; cbn in *; congruence).
  all: try (destruct (Hcb _ eq_refl) as [[? Hf] (? & Hm & [? Hc])];
            cbn in *; simplify_eq; cbn in *; congruence).
Qed.

(** X11.  The identity a descriptor carries comes from the callback query
    when the update has one (sender of the query, chat of the message the
    query came from), also when the update has a message as well, and from
    the message otherwise; an update with neither gives zeros and no name. *)
Theorem NewRequestDataFromUpdate_identity update data :
  NewRequestDataFromUpdate update = Value data →
  match Tgbotapi.Update_CallbackQuery update, Tgbotapi.Update_Message update with
  | Some callback, _ =>
      ∃ from message chat,
        Tgbotapi.CallbackQuery_From callback = Some from
        ∧ Tgbotapi.CallbackQuery_Message callback = Some message
        ∧ Tgbotapi.Message_Chat message = Some chat
        ∧ UserID data = Tgbotapi.User_ID from
        ∧ ChatID data = Tgbotapi.Chat_ID chat
        ∧ Username data = Tgbotapi.User_UserName from
  | None, Some message =>
      ∃ from chat,
        Tgbotapi.Message_From message = Some from
        ∧ Tgbotapi.Message_Chat message = Some chat
        ∧ UserID data = Tgbotapi.User_ID from
        ∧ ChatID data = Tgbotapi.Chat_ID chat
        ∧ Username data = Tgbotapi.User_UserName from
  | None, None => UserID data = 0 ∧ ChatID data = 0 ∧ Username data = ""
  end.
Proof.
  unfold NewRequestDataFromUpdate.
  destruct update as [[[mid [from|] [chat|] text]|] [[[cfrom|] [[cmid cmfrom [cchat|] ctext]|] cdata]|] other];
    cbn; intros [= <-]; cbn; eauto 10.
Qed.

Lemma NewRequestDataFromUpdate_identity_witness :
  let alice := Tgbotapi.mkUser 7 "alice" in
  let bob := Tgbotapi.mkUser 8 "bob" in
  let message := Tgbotapi.mkMessage 1 (Some alice) (Some (Tgbotapi.mkChat 70)) "/start" in
  let origin := Tgbotapi.mkMessage 2 None (Some (Tgbotapi.mkChat 80)) "" in
  let callback := Tgbotapi.mkCallbackQuery (Some bob) (Some origin) "trial" in
  let update := Tgbotapi.mkUpdate (Some message) (Some callback) None in
  let data := mkRequestData update (Some message) (Some callback) 8 80 "bob" in
  ∃ from message chat,
    Tgbotapi.CallbackQuery_From callback = Some from
    ∧ Tgbotapi.CallbackQuery_Message callback = Some message
    ∧ Tgbotapi.Message_Chat message = Some chat
    ∧ UserID data = Tgbotapi.User_ID from
    ∧ ChatID data = Tgbotapi.Chat_ID chat
    ∧ Username data = Tgbotapi.User_UserName from.
Proof.
  intros alice bob message origin callback update data.
  apply (NewRequestDataFromUpdate_identity update data). reflexivity.
Defined.

(** X12.  [Logger] only observes.  Unless the data is a nil descriptor
    pointer, or a descriptor with a callback query whose message pointer is
    nil, it runs the inner handler once, in a world that differs from its
    own only by log entries, returns the inner handler's result (nil, error
    or panic) as it is, and afterwards only adds log entries.  Data that is
    not a descriptor pointer is logged as an error and still handed to the
    inner handler. *)
Theorem Logger_observational {W : Type} `{!FieldLogger W} `{!Clock W}
    (next : HandlerFunc W) ctx data w :
  data ≠ NilRequest →
  (∀ requestData callback,
     data = Request requestData → Callback requestData = Some callback →
     is_Some (Tgbotapi.CallbackQuery_Message callback)) →
  ∃ w0,
    logged_from w w0
    ∧ fst (LoggerMiddleware next ctx data w) = fst (next ctx data w0)
    ∧ logged_from (snd (next ctx data w0)) (snd (LoggerMiddleware next ctx data w)).
Proof.
  intros Hnil Hptr. unfold LoggerMiddleware.
  destruct data as [requestData| |v]; [|done|].
  2:{ eexists. split; [apply logged_step, logged_refl|]. split; [done|].
      apply logged_refl. }
  specialize (Hptr requestData).
  destruct (Message requestData) as [message|];
    destruct (Callback requestData) as [callback|].
  all: try (destruct (Hptr callback eq_refl eq_refl) as [origin ->]); cbn.
  all: match goal with
       | |- context [?n ?c (Request ?r) ?w0] => exists w0
       end.
  all: split; [ repeat (apply logged_refl || apply logged_step) | ].
  all: match goal with
       | |- context [?n ?c (Request ?r) ?w0] =>
           destruct (n c (Request r) w0) as [[[e|]|p] w1]
       end; cbn; (split; [done|]);
       repeat (apply logged_refl || apply logged_step).
Qed.

Lemma Logger_observational_witness :
  let callback :=
    Tgbotapi.mkCallbackQuery None (Some (Tgbotapi.mkMessage 5 None None "")) "trial" in
  let data :=
    Request (mkRequestData (Tgbotapi.mkUpdate None (Some callback) None)
               None (Some callback) 7 9 "user") in
  let next := slow_handler (3 * Second) (Some ErrTimeout) in
  let w := mkLogWorld 1000 [] in
  ∃ w0,
    logged_from w w0
    ∧ fst (LoggerMiddleware next Background data w) = fst (next Background data w0)
    ∧ logged_from (snd (next Background data w0))
        (snd (LoggerMiddleware next Background data w)).
Proof.
  intros callback data next w.
  apply (Logger_observational next Background data w).
  - discriminate.
  - intros requestData callback' [= <-] [= <-]. by eexists.
Defined.

(** X13.  For a descriptor, [Logger] closes with one entry: "Request failed"
    at error level, carrying the error's message, when the inner handler
    returned an error, and "Request completed" at info level, with no error
    field, when it returned nil.  Either entry carries the whole
    milliseconds between the clock reading taken before the first entry and
    the one taken after the inner handler.  A panic of the inner handler
    passes through and leaves no closing entry. *)
Theorem Logger_closing_entry {W : Type} `{!FieldLogger W} `{!Clock W}
    (next : HandlerFunc W) ctx requestData w :
  (∀ callback, Callback requestData = Some callback →
     is_Some (Tgbotapi.CallbackQuery_Message callback)) →
  ∃ w0,
    logged_from w w0
    ∧ match next ctx (Request requestData) w0 with
      | (Value (Some e), w1) =>
          ∃ fields,
            LoggerMiddleware next ctx (Request requestData) w
            = (Value (Some e), Log ErrorLevel fields "Request failed" w1)
            ∧ fields !! "error" = Some (FieldString (Error e))
            ∧ fields !! "duration_ms"
              = Some (FieldInt (Milliseconds (Sub (Now w1) (Now w))))
      | (Value None, w1) =>
          ∃ fields,
            LoggerMiddleware next ctx (Request requestData) w
            = (Value None, Log InfoLevel fields "Request completed" w1)
            ∧ fields !! "error" = None
            ∧ fields !! "duration_ms"
              = Some (FieldInt (Milliseconds (Sub (Now w1) (Now w))))
      | (Panic r, w1) =>
          LoggerMiddleware next ctx (Request requestData) w = (Panic r, w1)
      end.
Proof.
  intros Hptr. unfold LoggerMiddleware.
  destruct (Message requestData) as [message|];
    destruct (Callback requestData) as [callback|].
  all: try (destruct (Hptr callback eq_refl) as [origin ->]); cbn.
  all: match goal with
       | |- context [?n ?c (Request ?r) ?w0] => exists w0
       end.
  all: split; [ repeat (apply logged_refl || apply logged_step) | ].
  all: match goal with
       | |- context [?n ?c (Request ?r) ?w0] =>
           destruct (n c (Request r) w0) as [[[e|]|p] w1]
       end; [ | | reflexivity ].
  all: eexists; split; [reflexivity|]; split; by simplify_map_eq.
Qed.

Lemma Logger_closing_entry_witness :
  let message := Tgbotapi.mkMessage 5 None None "/start" in
  let requestData :=
    mkRequestData (Tgbotapi.mkUpdate (Some message) None None)
      (Some message) None 7 9 "user" in
  let next := slow_handler (2500 * 1000000) (Some ErrTimeout) in
  let w := mkLogWorld 1000 [] in
  ∃ w0,
    logged_from w w0
    ∧ match next Background (Request requestData) w0 with
      | (Value (Some e), w1) =>
          ∃ fields,
            LoggerMiddleware next Background (Request requestData) w
            = (Value (Some e), Log ErrorLevel fields "Request failed" w1)
            ∧ fields !! "error" = Some (FieldString (Error e))
            ∧ fields !! "duration_ms"
              = Some (FieldInt (Milliseconds (Sub (Now w1) (Now w))))
      | (Value None, w1) =>
          ∃ fields,
            LoggerMiddleware next Background (Request requestData) w
            = (Value None, Log InfoLevel fields "Request completed" w1)
            ∧ fields !! "error" = None
            ∧ fields !! "duration_ms"
              = Some (FieldInt (Milliseconds (Sub (Now w1) (Now w))))
      | (Panic r, w1) =>
          LoggerMiddleware next Background (Request requestData) w = (Panic r, w1)
      end.
Proof.
  intros message requestData next w.
  apply (Logger_closing_entry next Background requestData w).
  intros callback [=].
Defined.

(** X14.  A descriptor whose callback query has no message makes [Logger]
    panic with a nil pointer dereference before the inner handler is run. *)
Theorem Logger_callback_without_message {W : Type} `{!FieldLogger W} `{!Clock W}
    (next : HandlerFunc W) ctx requestData callback w :
  Callback requestData = Some callback →
  Tgbotapi.CallbackQuery_Message callback = None →
  fst (LoggerMiddleware next ctx (Request requestData) w) = Panic nilDereference
  ∧ ∀ next' : HandlerFunc W,
      LoggerMiddleware next' ctx (Request requestData) w
      = LoggerMiddleware next ctx (Request requestData) w.
Proof.
  intros Hcb Hnil. unfold LoggerMiddleware. rewrite Hcb, Hnil.
  by destruct (Message requestData).
Qed.

Lemma Logger_callback_without_message_witness :
  let callback := Tgbotapi.mkCallbackQuery None None "trial" in
  let requestData :=
    mkRequestData (Tgbotapi.mkUpdate None (Some callback) None)
      None (Some callback) 7 9 "user" in
  let next := slow_handler 0 None in
  let w := mkLogWorld 1000 [] in
  fst (LoggerMiddleware next Background (Request requestData) w) = Panic nilDereference
  ∧ ∀ next' : HandlerFunc LogWorld,
      LoggerMiddleware next' Background (Request requestData) w
      = LoggerMiddleware next Background (Request requestData) w.
Proof.
  intros callback requestData next w.
  apply (Logger_callback_without_message next Background requestData callback w);
    reflexivity.
Defined.

(** X29.  With [Logger] around [Recovery], a panic of the inner handler is
    logged as a failed request: the chain returns the error [Recovery] made
    of the panic (the carried error, or [ErrInternalError]), and [Logger]'s
    closing entry is "Request failed" with that error's message. *)
Theorem Logger_sees_recovered_panic {W : Type}
    `{!FieldLogger W} `{!Clock W} `{!Logger W}
    (next : HandlerFunc W) ctx requestData w :
  (∀ callback, Callback requestData = Some callback →
     is_Some (Tgbotapi.CallbackQuery_Message callback)) →
  ∃ w0,
    logged_from w w0
    ∧ ∀ r w1,
        next ctx (Request requestData) w0 = (Panic r, w1) →
        let e := match r with
                 | PanicError panicErr => panicErr
                 | PanicOther _ => ErrInternalError
                 end in
        ∃ fields,
          Chain next [LoggerMiddleware; Recovery] ctx (Request requestData) w
          = (Value (Some e),
             Log ErrorLevel fields "Request failed"
               (LogPanic "panic" r "Handler panicked" w1))
          ∧ fields !! "error" = Some (FieldString (Error e)).
Proof.
  intros Hptr. rewrite Chain_foldr. cbn [foldr]. unfold LoggerMiddleware.
  destruct (Message requestData) as [message|];
    destruct (Callback requestData) as [callback|].
  all: try (destruct (Hptr callback eq_refl) as [origin ->]); cbn.
  all: match goal with
       | |- context [Recovery ?n ?c (Request ?r) ?w0] => exists w0
       end.
  all: split; [ repeat (apply logged_refl || apply logged_step) | ].
  all: intros r w1 Hpanic; unfold Recovery; rewrite Hpanic.
  all: destruct r as [panicErr|v]; cbn.
  all: eexists; split; [reflexivity|]; by simplify_map_eq.
Qed.

Lemma Logger_sees_recovered_panic_witness :
  let message := Tgbotapi.mkMessage 5 None None "/start" in
  let requestData :=
    mkRequestData (Tgbotapi.mkUpdate (Some message) None None)
      (Some message) None 7 9 "user" in
  let next := panicking_handler (PanicOther "boom") in
  let w := mkLogWorld 1000 [] in
  ∃ w0,
    logged_from w w0
    ∧ ∀ r w1,
        next Background (Request requestData) w0 = (Panic r, w1) →
        let e := match r with
                 | PanicError panicErr => panicErr
                 | PanicOther _ => ErrInternalError
                 end in
        ∃ fields,
          Chain next [LoggerMiddleware; Recovery] Background (Request requestData) w
          = (Value (Some e),
             Log ErrorLevel fields "Request failed"
               (LogPanic "panic" r "Handler panicked" w1))
          ∧ fields !! "error" = Some (FieldString (Error e)).
Proof.
  intros message requestData next w.
  apply (Logger_sees_recovered_panic next Background requestData w).
  intros callback [=].
Defined.

(** X15.  Data that is not a descriptor never reaches the terminal handler
    of a chain of [Logger], [Recovery], [RateLimit] and [Audit]: the chain
    returns [ErrInvalidRequestData], the limiter is not consulted, nothing
    is audited, and the only trace is the logger's one error entry. *)
Theorem Chain_rejects_invalid_data {W : Type}
    `{!FieldLogger W} `{!Clock W} `{!Logger W} `{!RateLimiter W} `{!AuditLogger W}
    (terminal : HandlerFunc W) ctx v w :
  Chain terminal [LoggerMiddleware; Recovery; RateLimit; Audit] ctx (NotRequest v) w
  = (Value (Some ErrInvalidRequestData),
     Log ErrorLevel ∅ "Invalid request data type in logging middleware" w).
Proof. by rewrite Chain_foldr. Qed.

(** X16.  The label [Audit] records tells what was audited: two descriptors
    get the same label only if both have a message with the same text, or
    neither has a message and both have a callback query with the same
    data, or neither has either. *)
Theorem audit_action_unambiguous requestData1 requestData2 :
  audit_action requestData1 = audit_action requestData2 →
  match Message requestData1, Message requestData2 with
  | Some message1, Some message2 =>
      Tgbotapi.Message_Text message1 = Tgbotapi.Message_Text message2
  | None, None =>
      match Callback requestData1, Callback requestData2 with
      | Some callback1, Some callback2 =>
          Tgbotapi.CallbackQuery_Data callback1 = Tgbotapi.CallbackQuery_Data callback2
      | None, None => True
      | _, _ => False
      end
  | _, _ => False
  end.
Proof.
  unfold audit_action.
  destruct (Message requestData1), (Message requestData2),
    (Callback requestData1), (Callback requestData2); cbn;
    intros Heq; by simplify_eq.
Qed.

Lemma audit_action_unambiguous_witness :
  let message1 := Tgbotapi.mkMessage 1 None None "/help" in
  let message2 := Tgbotapi.mkMessage 2 None None "/help" in
  let update := Tgbotapi.mkUpdate None None None in
  Tgbotapi.Message_Text message1 = Tgbotapi.Message_Text message2.
Proof.
  intros message1 message2 update.
  apply (audit_action_unambiguous
           (mkRequestData update (Some message1) None 7 9 "a")
           (mkRequestData update (Some message2) None 8 9 "b")).
  reflexivity.
Defined.

End MiddlewareProps.

(** ** The limiter behind the middleware *)

Module PipelineProps.
Import GoTime GoTimeFacts Middleware MiddlewareFacts.

(** One request through [Recovery], [RateLimit] over the adapter, [Audit]
    and the counting handler. *)
Lemma counting_pipeline_step ctx requestData (w : Bot.World) :
  Bot.counting_pipeline ctx (Request requestData) w
  = let '(ok, limits1) :=
      Bot.Allow (Bot.clock w) (UserID requestData) (Bot.limiter w) in
    if ok
    then (Value None,
          Bot.mkWorld (Bot.clock w) limits1
            (Bot.actions w ++ [audit_action requestData])
            (Bot.logged w) (S (Bot.handled w)))
    else (Value (Some ErrRateLimitExceeded), Bot.set_limiter limits1 w).
Proof.
  unfold Bot.counting_pipeline. rewrite Chain_foldr. cbn.
  unfold Recovery, RateLimit, Allow, Bot.RateLimiterAdapter.
  by destruct (Bot.Allow _ _ _) as [[] limits1].
Qed.

Lemma serve_app handler a b data (w : Bot.World) :
  Bot.serve handler (a + b) data w
  = (fst (Bot.serve handler a data w)
       ++ fst (Bot.serve handler b data (snd (Bot.serve handler a data w))),
     snd (Bot.serve handler b data (snd (Bot.serve handler a data w)))).
Proof.
  revert w. induction a as [|a IH]; intros w; cbn.
  - by destruct (Bot.serve handler b data w).
  - destruct (handler Background data w) as [r w1]. rewrite IH.
    by destruct (Bot.serve handler a data w1).
Qed.

(** While the counter stays at or below 20, requests at one clock reading
    are all served. *)
Lemma serve_admitted requestData k :
  ∀ (w : Bot.World) limit,
    Bot.limiter w !! UserID requestData = Some limit →
    Bot.Blocked limit = false →
    Bot.LastRequest limit = Bot.clock w →
    0 ≤ Bot.Count limit →
    Bot.Count limit + Z.of_nat k ≤ 20 →
    Bot.serve Bot.counting_pipeline k (Request requestData) w
    = (replicate k (Value None),
       Bot.mkWorld (Bot.clock w)
         (<[UserID requestData :=
              Bot.mkUserLimit (Bot.clock w) (Bot.Count limit + Z.of_nat k) false
                (Bot.BlockedAt limit)]> (Bot.limiter w))
         (Bot.actions w ++ replicate k (audit_action requestData))
         (Bot.logged w) (Bot.handled w + k)).
Proof.
  induction k as [|k IH]; intros w limit Hlk Hb Hlast H0 Hle.
  - cbn. f_equal. rewrite Z.add_0_r, app_nil_r, Nat.add_0_r.
    rewrite insert_id; [by destruct w|].
    rewrite Hlk. f_equal. destruct limit; cbn in *; by subst.
  - cbn [Bot.serve]. rewrite counting_pipeline_step.
    rewrite (RateLimiterProps.Allow_gap_counts _ _ _ limit)
      by (done || (rewrite ?Hlast, ?Minute_ns; lia)).
    erewrite IH; [| apply lookup_insert_eq | done | done | cbn; lia | cbn; lia ].
    cbn. rewrite insert_insert_eq, <- app_assoc. cbn.
    do 4 f_equal; lia.
Qed.

(** While the block lasts, requests are all refused and nothing changes. *)
Lemma serve_refused requestData k :
  ∀ (w : Bot.World) limit,
    Bot.limiter w !! UserID requestData = Some limit →
    Bot.Blocked limit = true →
    Bot.clock w - Bot.BlockedAt limit ≤ 10 * Minute →
    Bot.serve Bot.counting_pipeline k (Request requestData) w
    = (replicate k (Value (Some ErrRateLimitExceeded)), w).
Proof.
  induction k as [|k IH]; intros w limit Hlk Hb Hle; [done|].
  cbn [Bot.serve]. rewrite counting_pipeline_step.
  rewrite (BotFacts.Allow_blocked _ _ _ limit) by done.
  replace (Bot.set_limiter (Bot.limiter w) w) with w by by destruct w.
  by rewrite (IH w limit).
Qed.

Lemma serve_fresh requestData n (w : Bot.World) :
  Bot.limiter w !! UserID requestData = None →
  (n ≤ 19)%nat →
  Bot.serve Bot.counting_pipeline (S n) (Request requestData) w
  = (replicate (S n) (Value None),
     Bot.mkWorld (Bot.clock w)
       (<[UserID requestData :=
            Bot.mkUserLimit (Bot.clock w) (Z.of_nat (S n)) false zeroTime]>
          (Bot.limiter w))
       (Bot.actions w ++ replicate (S n) (audit_action requestData))
       (Bot.logged w) (Bot.handled w + S n)).
Proof.
  intros Hnone Hn. cbn [Bot.serve]. rewrite counting_pipeline_step.
  rewrite BotFacts.Allow_fresh by done.
  erewrite serve_admitted;
    [ | apply lookup_insert_eq | done | done | cbn; lia | cbn; lia ].
  cbn. rewrite insert_insert_eq, <- app_assoc. cbn.
  do 4 f_equal; lia.
Qed.

(** X17.  Of [n] requests of a new user served at one clock reading through
    [Recovery], [RateLimit] (over the adapter and the real limiter) and
    [Audit], the first 20 are served and every later one is refused with
    [ErrRateLimitExceeded]: the terminal handler runs min(n, 20) times and
    the audit sink records min(n, 20) actions. *)
Theorem serve_counting_pipeline requestData n (w : Bot.World) :
  Bot.limiter w !! UserID requestData = None →
  fst (Bot.serve Bot.counting_pipeline n (Request requestData) w)
  = replicate (n `min` 20) (Value None)
      ++ replicate (n - 20) (Value (Some ErrRateLimitExceeded))
  ∧ Bot.handled (snd (Bot.serve Bot.counting_pipeline n (Request requestData) w))
    = (Bot.handled w + n `min` 20)%nat
  ∧ Bot.actions (snd (Bot.serve Bot.counting_pipeline n (Request requestData) w))
    = Bot.actions w ++ replicate (n `min` 20) (audit_action requestData).
Proof.
  intros Hnone. destruct (le_lt_dec n 20) as [Hle|Hgt].
  - replace (n - 20)%nat with 0%nat by lia.
    replace (n `min` 20)%nat with n by lia.
    destruct n as [|n].
    + cbn. by rewrite Nat.add_0_r, app_nil_r.
    + rewrite serve_fresh by (done || lia). cbn [fst snd replicate].
      by rewrite app_nil_r.
  - replace (n `min` 20)%nat with 20%nat by lia.
    set (w20 := Bot.mkWorld (Bot.clock w)
                  (<[UserID requestData :=
                       Bot.mkUserLimit (Bot.clock w) 20 false zeroTime]>
                     (Bot.limiter w))
                  (Bot.actions w ++ replicate 20 (audit_action requestData))
                  (Bot.logged w) (Bot.handled w + 20)).
    set (blocked := Bot.mkUserLimit (Bot.clock w) 21 true (Bot.clock w)).
    set (w21 := Bot.set_limiter
                  (<[UserID requestData := blocked]> (Bot.limiter w)) w20).
    assert (Bot.serve Bot.counting_pipeline 1 (Request requestData) w20
            = ([Value (Some ErrRateLimitExceeded)], w21)) as Hstep.
    { cbn [Bot.serve]. rewrite counting_pipeline_step. subst w21 w20. cbn.
      erewrite RateLimiterProps.Allow_gap_overflow;
        [ | apply lookup_insert_eq | done | cbn; rewrite Minute_ns; lia | done ].
      by rewrite insert_insert_eq. }
    assert (Bot.serve Bot.counting_pipeline n (Request requestData) w
            = (replicate 20 (Value None)
                 ++ replicate (n - 20) (Value (Some ErrRateLimitExceeded)),
               w21)) as Hrun.
    { replace n with (20 + (1 + (n - 21)))%nat at 1 by lia.
      rewrite !serve_app.
      rewrite (serve_fresh requestData 19 w) by (done || lia). cbn [fst snd].
      change (Bot.mkWorld (Bot.clock w) _ _ _ _) with w20.
      rewrite Hstep. cbn [fst snd].
      rewrite (serve_refused requestData (n - 21) w21 blocked);
        [ | subst w21 w20; cbn; apply lookup_insert_eq | done
          | subst w21 w20 blocked; cbn; rewrite Minute_ns; lia ].
      cbn [fst snd]. f_equal. f_equal.
      change [Value (Some ErrRateLimitExceeded)]
        with (replicate 1 (Value (Some ErrRateLimitExceeded))).
      rewrite <- replicate_add. f_equal. lia. }
    by rewrite Hrun.
Qed.

Lemma serve_counting_pipeline_witness :
  let message := Tgbotapi.mkMessage 1 None None "/start" in
  let requestData :=
    mkRequestData (Tgbotapi.mkUpdate (Some message) None None)
      (Some message) None 7 9 "user" in
  let w := Bot.mkWorld 6000 (<[8 := Bot.fresh_limit 5000]> ∅) ["message:/help"] [] 3 in
  let n := 25%nat in
  fst (Bot.serve Bot.counting_pipeline n (Request requestData) w)
  = replicate (n `min` 20) (Value None)
      ++ replicate (n - 20) (Value (Some ErrRateLimitExceeded))
  ∧ Bot.handled (snd (Bot.serve Bot.counting_pipeline n (Request requestData) w))
    = (Bot.handled w + n `min` 20)%nat
  ∧ Bot.actions (snd (Bot.serve Bot.counting_pipeline n (Request requestData) w))
    = Bot.actions w ++ replicate (n `min` 20) (audit_action requestData).
Proof.
  intros message requestData w n.
  apply (serve_counting_pipeline requestData n w). reflexivity.
Defined.

End PipelineProps.

(** ** The dispatcher and the audit logger *)

Module HandlerProps.
Import GoTime Middleware MiddlewareFacts.

(** The constructor either returns a descriptor that mirrors the update or
    panics on a nil pointer. *)
Lemma NewRequestDataFromUpdate_cases update :
  match NewRequestDataFromUpdate update with
  | Value data =>
      pointers_present update
      ∧ Message data = Tgbotapi.Update_Message update
      ∧ Callback data = Tgbotapi.Update_CallbackQuery update
  | Panic r => r = nilDereference ∧ ¬ pointers_present update
  end.
Proof.
  unfold NewRequestDataFromUpdate, pointers_present.
  destruct update as [[[mid [from|] [chat|] text]|] [[[cfrom|] [[cmid cmfrom [cchat|] ctext]|] cdata]|] other];
    cbn.
  all: try (split; [reflexivity|]; intros [Hmsg Hcb]).
  all: try (split; [|done]; split; intros ? [= <-]; cbn; eauto).
  all: try (destruct (Hmsg _ eq_refl) as [[? Hf] [? Hc]]; cbn in *; congruence).
  all: try (destruct (Hcb _ eq_refl) as [[? Hf] (? & Hm & [? Hc])];
            cbn in *; simplify_eq; cbn in *; congruence).
Qed.

(** The layers of the chain [NewHandlerWithMiddleware] builds, with
    [timeout] for its third, each hand their data on. *)
Lemma assembled_chain_forwards {W : Type}
    `{!FieldLogger W} `{!Clock W} `{!Logger W} `{!RateLimiter W} `{!AuditLogger W}
    (timeout : Middleware W) :
  forwards_descriptor timeout →
  Forall forwards_descriptor
    [LoggerMiddleware; Recovery; timeout; RateLimit; Audit].
Proof.
  intros Htimeout. repeat apply Forall_cons_2; [ | | done | | | apply Forall_nil_2 ].
  - apply Logger_forwards.
  - apply Recovery_forwards.
  - apply RateLimit_forwards.
  - apply Audit_forwards.
Qed.



(** X18.  What [processUpdateWithMiddleware] hands to a chain always has
    exactly one variant.  An update with a callback query goes to the
    callback chain with a descriptor that has the query and no message, even
    if the update carries a message too; an update with only a message goes
    to the message chain with the message and no query; an update with
    neither is dropped with a nil result.  If a pointer the constructor
    follows is nil, the panic happens before any chain is entered, so no
    middleware sees it. *)
Theorem processUpdate_descriptor {W : Type} (h : Bot.HandlerWithMiddleware W)
    ctx update (w : W) :
  match Tgbotapi.Update_CallbackQuery update, Tgbotapi.Update_Message update with
  | Some callback, _ =>
      (¬ pointers_present (Tgbotapi.mkUpdate None (Some callback) None)
       ∧ Bot.processUpdateWithMiddleware h ctx update w = (Panic nilDereference, w))
      ∨ ∃ requestData,
          Message requestData = None ∧ Callback requestData = Some callback
          ∧ Bot.processUpdateWithMiddleware h ctx update w
            = Bot.callbackHandler h ctx (Request requestData) w
  | None, Some message =>
      (¬ pointers_present update
       ∧ Bot.processUpdateWithMiddleware h ctx update w = (Panic nilDereference, w))
      ∨ ∃ requestData,
          Message requestData = Some message ∧ Callback requestData = None
          ∧ Bot.processUpdateWithMiddleware h ctx update w
            = Bot.messageHandler h ctx (Request requestData) w
  | None, None =>
      Bot.processUpdateWithMiddleware h ctx update w = (Value None, w)
  end.
Proof.
  unfold Bot.processUpdateWithMiddleware, Bot.HandleCallback, Bot.HandleUpdate.
  destruct (Tgbotapi.Update_CallbackQuery update) as [callback|] eqn:Hcb.
  - pose proof (NewRequestDataFromUpdate_cases
                  (Tgbotapi.mkUpdate None (Some callback) None)) as Hcases.
    destruct (NewRequestDataFromUpdate _) as [data|r].
    + right. exists data. by destruct Hcases as (_ & ? & ?).
    + left. by destruct Hcases as [-> ?].
  - destruct (Tgbotapi.Update_Message update) as [message|] eqn:Hmsg; [|done].
    pose proof (NewRequestDataFromUpdate_cases update) as Hcases.
    destruct (NewRequestDataFromUpdate update) as [data|r].
    + right. exists data. destruct Hcases as (_ & Hm & Hc).
      rewrite Hmsg in Hm. by rewrite Hcb in Hc.
    + left. by destruct Hcases as [-> ?].
Qed.

(** X19.  A message update whose pointers are set is answered by the
    command its text selects, "/start", "/account", "/help" or, for any
    other text, the unknown-command handler, whatever middlewares that pass
    their data on sit in the message chain, under the context they were
    given or one they derived as [Timeout] does: the terminal handler's
    guards for a missing message or foreign data do not fire on this
    path. *)
Theorem message_update_runs_command {W : Type} (c : Bot.Commands W)
    (middlewares : list (Middleware W)) (callbacks : HandlerFunc W)
    ctx update message (w : W) :
  Forall forwards_descriptor middlewares →
  Tgbotapi.Update_CallbackQuery update = None →
  Tgbotapi.Update_Message update = Some message →
  pointers_present update →
  ∃ requestData,
    Bot.processUpdateWithMiddleware
      (Bot.mkHandlerWithMiddleware
         (Chain (Bot.handleMessageWithMiddleware c) middlewares) callbacks)
      ctx update w
    = Chain (λ ctx' _ w', Bot.switch_text c ctx' message w') middlewares
        ctx (Request requestData) w.
Proof.
  intros Hfwd Hcb Hmsg Hptr.
  unfold Bot.processUpdateWithMiddleware, Bot.HandleUpdate. rewrite Hcb, Hmsg.
  pose proof (NewRequestDataFromUpdate_cases update) as Hcases.
  destruct (NewRequestDataFromUpdate update) as [data|r];
    [|by destruct Hcases as [_ []]].
  destruct Hcases as (_ & Hm & _). exists data. cbn.
  apply Chain_forwards; [done|]. intros ctx' w'. cbn. by rewrite Hm, Hmsg.
Qed.

Lemma message_update_runs_command_witness :
  let chain : list (Middleware Bot.ChainWorld) :=
    [LoggerMiddleware; Recovery; Bot.under_deadline (30 * Second); RateLimit; Audit] in
  let message :=
    Tgbotapi.mkMessage 1 (Some (Tgbotapi.mkUser 7 "user"))
      (Some (Tgbotapi.mkChat 9)) "/account" in
  let update := Tgbotapi.mkUpdate (Some message) None None in
  let w := Bot.mkChainWorld 6000 ∅ [] in
  ∃ requestData,
    Bot.processUpdateWithMiddleware
      (Bot.mkHandlerWithMiddleware
         (Chain (Bot.handleMessageWithMiddleware Bot.logging_commands) chain)
         (Chain (Bot.handleCallbackWithMiddleware Bot.logging_commands) chain))
      Background update w
    = Chain (λ ctx' _ w', Bot.switch_text Bot.logging_commands ctx' message w')
        chain Background (Request requestData) w.
Proof.
  intros chain message update w.
  apply (message_update_runs_command Bot.logging_commands chain
           (Chain (Bot.handleCallbackWithMiddleware Bot.logging_commands) chain)
           Background update message w).
  - apply assembled_chain_forwards.
    intros next next' data Hsame ctx' w'. apply Hsame.
  - reflexivity.
  - reflexivity.
  - split.
    + intros m [= <-]. split; eexists; reflexivity.
    + intros q [=].
Defined.

(** X28.  [HandleCallback] given a nil callback query still enters the
    callback chain, with a descriptor that has neither variant and user id
    0.  Whatever the layers before [RateLimit] do around it ([Logger],
    [Recovery] and a layer in [Timeout]'s place that passes its data on),
    what they wrap is: user 0 is charged by the limiter and, if admitted,
    "unknown" is audited for user 0 before the terminal handler refuses
    with "no callback in request data". *)
Theorem HandleCallback_nil {W : Type}
    `{!FieldLogger W} `{!Clock W} `{!Logger W} `{!RateLimiter W} `{!AuditLogger W}
    (c : Bot.Commands W) (messages : HandlerFunc W) (timeout : Middleware W)
    ctx (w : W) :
  forwards_descriptor timeout →
  let empty :=
    mkRequestData (Tgbotapi.mkUpdate None None None) None None 0 0 "" in
  Bot.HandleCallback
    (Bot.mkHandlerWithMiddleware messages
       (Chain (Bot.handleCallbackWithMiddleware c)
          [LoggerMiddleware; Recovery; timeout; RateLimit; Audit]))
    ctx None w
  = Chain
      (λ ctx' _ w',
         let '(ok, w1) := Allow 0 w' in
         if ok
         then (Value (Some (ErrorString "no callback in request data")),
               LogAction 0 "unknown" (Now w1) w1)
         else (Value (Some ErrRateLimitExceeded), w1))
      [LoggerMiddleware; Recovery; timeout]
      ctx (Request empty) w.
Proof.
  intros Htimeout empty.
  change (Bot.HandleCallback _ ctx None w)
    with (Chain (Bot.handleCallbackWithMiddleware c)
            ([LoggerMiddleware; Recovery; timeout] ++ [RateLimit; Audit])
            ctx (Request empty) w).
  rewrite Chain_split.
  apply Chain_forwards.
  - repeat apply Forall_cons_2; [ | | done | apply Forall_nil_2 ].
    + apply Logger_forwards.
    + apply Recovery_forwards.
  - intros ctx' w'. cbn. unfold RateLimit, Audit, Bot.handleCallbackWithMiddleware.
    cbn. by destruct (Allow 0 w') as [[] w1].
Qed.

Lemma HandleCallback_nil_witness :
  let empty :=
    mkRequestData (Tgbotapi.mkUpdate None None None) None None 0 0 "" in
  let timeout := Bot.under_deadline (30 * Second) in
  let w := Bot.mkChainWorld 6000 ∅ [] in
  Bot.HandleCallback
    (Bot.mkHandlerWithMiddleware
       (Bot.handleMessageWithMiddleware Bot.logging_commands)
       (Chain (Bot.handleCallbackWithMiddleware Bot.logging_commands)
          [LoggerMiddleware; Recovery; timeout; RateLimit; Audit]))
    Background None w
  = Chain
      (λ ctx' _ w',
         let '(ok, w1) := Allow 0 w' in
         if ok
         then (Value (Some (ErrorString "no callback in request data")),
               LogAction 0 "unknown" (Now w1) w1)
         else (Value (Some ErrRateLimitExceeded), w1))
      [LoggerMiddleware; Recovery; timeout]
      Background (Request empty) w.
Proof.
  intros empty timeout w.
  apply (HandleCallback_nil Bot.logging_commands
           (Bot.handleMessageWithMiddleware Bot.logging_commands) timeout
           Background w).
  intros next next' data Hsame ctx' w'. apply Hsame.
Defined.

Section AuditLog.
Context {W : Type} `{!FieldLogger W} `{!Clock W} `{!Bot.JSON}.

(** X20.  [LogEvent] writes one "Audit event" entry, at info level for a
    success and at warn level for a failure, with the user id, the action
    and the clock reading; the entry has an error field only when an error
    with a non-empty message was passed. *)
Theorem LogEvent_entry userID username action success err details (w : W) :
  ∃ fields,
    Bot.LogEvent userID username action success err details w
    = Log (if success then InfoLevel else WarnLevel) fields "Audit event" w
    ∧ fields !! "user_id" = Some (FieldInt userID)
    ∧ fields !! "action" = Some (FieldString action)
    ∧ fields !! "timestamp" = Some (FieldTime (Now w))
    ∧ fields !! "error"
      = match err with
        | Some e => if decide (Error e = "") then None else Some (FieldString (Error e))
        | None => None
        end.
Proof.
  unfold Bot.LogEvent. eexists. split; [reflexivity|].
  destruct err as [e|]; cbn;
    repeat case_decide; simplify_map_eq; done.
Qed.

(** X21.  What the pipeline's [Audit] leaves in the log when its sink is
    the adapter: one info entry "Audit event" whose action field is always
    "security_user_action" and whose username is empty; the label
    ("message:..." or "callback:...") is only inside the marshalled details,
    next to the timestamp and the event type "security".  The inner handler
    then runs in that world. *)
Theorem Audit_through_adapter (next : HandlerFunc W) ctx requestData (w : W) :
  ∃ fields,
    @Audit W Bot.AuditLoggerAdapter _ next ctx (Request requestData) w
    = next ctx (Request requestData) (Log InfoLevel fields "Audit event" w)
    ∧ fields !! "action" = Some (FieldString "security_user_action")
    ∧ fields !! "username" = Some (FieldString "")
    ∧ fields !! "user_id" = Some (FieldInt (UserID requestData))
    ∧ fields !! "error" = None
    ∧ fields !! "details"
      = match Bot.Marshal
                (<["event_type" := Bot.DetailString "security"]>
                   (<["timestamp" := Bot.DetailTime (Now w)]>
                      (<["action" := Bot.DetailString (audit_action requestData)]> ∅)))
        with
        | Some detailsJSON =>
            if decide (detailsJSON = "") then None
            else Some (FieldString detailsJSON)
        | None => None
        end.
Proof.
  unfold Audit, LogAction, Bot.AuditLoggerAdapter, Bot.LogSecurityEvent,
    Bot.LogEvent. cbn [default].
  eexists. split; [reflexivity|].
  destruct (Bot.Marshal _) as [detailsJSON|]; cbn;
    repeat case_decide; simplify_map_eq; done.
Qed.

End AuditLog.

End HandlerProps.

(** ** The user's quota *)

Module DomainProps.
Import GoTime Domain.

Lemma wrap64_small z : is_int64 z → wrap64 z = z.
Proof.
  unfold is_int64, maxInt64, wrap64. intros Hz. rewrite Z.mod_small; lia.
Qed.

(** The checks of [Validate], read as one condition. *)
Lemma Validate_None u :
  Validate u = None
  ↔ 0 < TelegramID u ∧ FirstName u ≠ ""
    ∧ (Status u = UserStatusInactive ∨ Status u = UserStatusTrial
       ∨ Status u = UserStatusActive)
    ∧ 0 ≤ QuotaLimit u ∧ 0 ≤ QuotaUsed u.
Proof.
  unfold Validate.
  destruct (Z.leb_spec (TelegramID u) 0);
    [split; [done | intros (? & _); lia]|].
  case_bool_decide as Hfn; [split; [done | intros (_ & ? & _); done]|].
  assert (bool_decide (Status u ≠ UserStatusInactive)
          && bool_decide (Status u ≠ UserStatusTrial)
          && bool_decide (Status u ≠ UserStatusActive) = true
          ↔ ¬ (Status u = UserStatusInactive ∨ Status u = UserStatusTrial
               ∨ Status u = UserStatusActive)) as Hst.
  { rewrite !andb_true_iff, !bool_decide_eq_true. tauto. }
  destruct (_ && _).
  { split; [done|]. intros (_ & _ & Hs & _). by apply Hst in Hs. }
  assert (Status u = UserStatusInactive ∨ Status u = UserStatusTrial
          ∨ Status u = UserStatusActive) as Hs.
  { destruct (decide (Status u = UserStatusInactive)); [tauto|].
    destruct (decide (Status u = UserStatusTrial)); [tauto|].
    destruct (decide (Status u = UserStatusActive)); [tauto|].
    exfalso. assert (false = true) by (apply Hst; tauto). done. }
  destruct (Z.ltb_spec (QuotaLimit u) 0);
    [split; [done | intros (_ & _ & _ & ? & _); lia]|].
  destruct (Z.ltb_spec (QuotaUsed u) 0);
    [split; [done | intros (_ & _ & _ & _ & ?); lia]|].
  split; [intros _; repeat split; (done || lia) | done].
Qed.

Lemma CanUseQuota_true amount u :
  0 ≤ QuotaUsed u → 0 ≤ QuotaLimit u →
  is_int64 (QuotaUsed u) → is_int64 (QuotaLimit u) →
  CanUseQuota amount u = true
  ↔ IsActive u = true ∧ 0 < amount ∧ QuotaUsed u + amount ≤ QuotaLimit u.
Proof.
  intros Hu Hl Hiu Hil. unfold CanUseQuota, GetQuotaRemaining.
  rewrite wrap64_small by (unfold is_int64, maxInt64 in *; lia).
  destruct (IsActive u); cbn; [|split; [done | by intros []]].
  destruct (Z.leb_spec amount 0); [split; [done | lia]|].
  destruct (Z.leb_spec amount (QuotaLimit u - QuotaUsed u));
    split; (done || lia || (intros; repeat split; (done || lia))).
Qed.

(** X22.  Charging a user that passes [Validate]: the charge is accepted
    exactly when the user is active or on trial, the amount is positive and
    the amount fits into what is left.  An accepted charge adds the amount
    to the used quota, without wrapping, keeps it at or below the limit and
    keeps the user valid; a refused one changes nothing. *)
Theorem AddQuotaUsage_accepts_iff now amount u :
  Validate u = None →
  is_int64 (QuotaUsed u) → is_int64 (QuotaLimit u) → is_int64 amount →
  (fst (AddQuotaUsage now amount u) = None
   ↔ IsActive u = true ∧ 0 < amount ∧ QuotaUsed u + amount ≤ QuotaLimit u)
  ∧ (fst (AddQuotaUsage now amount u) = None →
       QuotaUsed (snd (AddQuotaUsage now amount u)) = QuotaUsed u + amount
       ∧ QuotaUsed (snd (AddQuotaUsage now amount u))
         ≤ QuotaLimit (snd (AddQuotaUsage now amount u))
       ∧ Validate (snd (AddQuotaUsage now amount u)) = None)
  ∧ (fst (AddQuotaUsage now amount u) ≠ None →
       snd (AddQuotaUsage now amount u) = u).
Proof.
  intros Hval Hiu Hil Hia.
  pose proof (proj1 (Validate_None u) Hval) as (Hid & Hfn & Hst & Hl & Hu).
  pose proof (CanUseQuota_true amount u Hu Hl Hiu Hil) as Hcan.
  unfold AddQuotaUsage. destruct (CanUseQuota amount u); cbn.
  - destruct (proj1 Hcan eq_refl) as (Hact & Hpos & Hfit).
    rewrite wrap64_small by (unfold is_int64, maxInt64 in *; lia).
    split; [tauto|]. split; [|done]. intros _. split; [done|]. split; [done|].
    apply Validate_None. cbn. repeat split; (done || lia).
  - split; [split; [done | intros H; apply Hcan in H; done]|].
    split; [done | done].
Qed.

Lemma AddQuotaUsage_accepts_iff_witness :
  let u := mkUser 1 7 "user" "Ann" "" UserStatusTrial 100 80 1000 1000 in
  (fst (AddQuotaUsage 2000 20 u) = None
   ↔ IsActive u = true ∧ 0 < 20 ∧ QuotaUsed u + 20 ≤ QuotaLimit u)
  ∧ (fst (AddQuotaUsage 2000 20 u) = None →
       QuotaUsed (snd (AddQuotaUsage 2000 20 u)) = QuotaUsed u + 20
       ∧ QuotaUsed (snd (AddQuotaUsage 2000 20 u))
         ≤ QuotaLimit (snd (AddQuotaUsage 2000 20 u))
       ∧ Validate (snd (AddQuotaUsage 2000 20 u)) = None)
  ∧ (fst (AddQuotaUsage 2000 20 u) ≠ None →
       snd (AddQuotaUsage 2000 20 u) = u).
Proof.
  intros u. apply (AddQuotaUsage_accepts_iff 2000 20 u);
    [ reflexivity | | | ]; unfold is_int64, maxInt64; cbn; lia.
Defined.

(** X23.  However many charges are made, accepted or refused, a valid user
    whose used quota is within the limit stays valid and within the limit;
    the used quota never goes down and the limit never changes. *)
Theorem charge_keeps_quota now amounts u :
  Validate u = None →
  QuotaUsed u ≤ QuotaLimit u →
  is_int64 (QuotaLimit u) →
  Forall is_int64 amounts →
  Validate (charge now amounts u) = None
  ∧ QuotaUsed u ≤ QuotaUsed (charge now amounts u)
    ≤ QuotaLimit (charge now amounts u)
  ∧ QuotaLimit (charge now amounts u) = QuotaLimit u.
Proof.
  intros Hval Hfit Hil Hall. revert u Hval Hfit Hil.
  induction Hall as [|amount amounts Hia _ IH]; intros u Hval Hfit Hil.
  { cbn. repeat split; (done || lia). }
  change (charge now (amount :: amounts) u)
    with (charge now amounts (snd (AddQuotaUsage now amount u))).
  set (u1 := snd (AddQuotaUsage now amount u)).
  assert (Validate u1 = None
          ∧ QuotaUsed u ≤ QuotaUsed u1 ≤ QuotaLimit u1
          ∧ QuotaLimit u1 = QuotaLimit u) as (Hval1 & Hq1 & Hl1).
  { pose proof (proj1 (Validate_None u) Hval) as (Hid & Hfn & Hst & Hl & Hu).
    assert (is_int64 (QuotaUsed u)) as Hiu
      by (unfold is_int64, maxInt64 in *; lia).
    pose proof (CanUseQuota_true amount u Hu Hl Hiu Hil) as Hcan.
    subst u1. unfold AddQuotaUsage.
    destruct (CanUseQuota amount u); cbn [negb snd]; [|by repeat split; try lia].
    destruct (proj1 Hcan eq_refl) as (Hact & Hpos & Hfit').
    rewrite wrap64_small by (unfold is_int64, maxInt64 in *; lia).
    cbn. split; [|split; [lia | done]].
    apply Validate_None. cbn. repeat split; (done || lia). }
  destruct (IH u1) as (Hv & Hq & Hlim); [done | lia | by rewrite Hl1 |].
  split; [done|]. split; [lia | by rewrite Hlim].
Qed.

Lemma charge_keeps_quota_witness :
  let u := mkUser 1 7 "user" "Ann" "" UserStatusActive 100 80 1000 1000 in
  let amounts := [15; 10; -3; 5] in
  Validate (charge 2000 amounts u) = None
  ∧ QuotaUsed u ≤ QuotaUsed (charge 2000 amounts u)
    ≤ QuotaLimit (charge 2000 amounts u)
  ∧ QuotaLimit (charge 2000 amounts u) = QuotaLimit u.
Proof.
  intros u amounts. apply (charge_keeps_quota 2000 amounts u).
  - reflexivity.
  - cbn. lia.
  - unfold is_int64, maxInt64. cbn. lia.
  - repeat constructor; unfold maxInt64; lia.
Defined.

(** X24.  A user made by [NewUser] passes [Validate] exactly when the
    Telegram id is positive and the first name is not empty. *)
Theorem NewUser_valid_iff now telegramID username firstName lastName :
  Validate (NewUser now telegramID username firstName lastName) = None
  ↔ 0 < telegramID ∧ firstName ≠ "".
Proof.
  rewrite Validate_None. unfold NewUser, DefaultQuotaLimit. cbn.
  split; [tauto|]. intros []. repeat split; (done || lia || tauto).
Qed.

(** X25.  A new user is inactive and may activate the trial, and no charge
    on it is accepted.  After [ActivateTrial] the user is active, may not
    activate the trial again, and a charge is accepted exactly when the
    amount is positive and at most the default limit of 50 MB. *)
Theorem trial_lifecycle now now1 now2 telegramID username firstName lastName amount :
  is_int64 amount →
  let u := NewUser now telegramID username firstName lastName in
  let t := ActivateTrial now1 u in
  IsActive u = false ∧ CanActivateTrial u = true
  ∧ fst (AddQuotaUsage now2 amount u) ≠ None
  ∧ IsActive t = true ∧ CanActivateTrial t = false
  ∧ (fst (AddQuotaUsage now2 amount t) = None
     ↔ 0 < amount ≤ DefaultQuotaLimit).
Proof.
  intros Hia u t. subst u t.
  unfold AddQuotaUsage, CanUseQuota, GetQuotaRemaining, ActivateTrial, NewUser,
    DefaultQuotaLimit. cbn.
  repeat (split; [done|]).
  rewrite wrap64_small by (unfold is_int64, maxInt64; lia).
  destruct (Z.leb_spec amount 0); cbn; [split; [done | lia]|].
  destruct (Z.leb_spec amount (52428800 - 0)); cbn; split; (done || lia).
Qed.

Lemma trial_lifecycle_witness :
  let u := NewUser 1000 7 "user" "Ann" "" in
  let t := ActivateTrial 2000 u in
  IsActive u = false ∧ CanActivateTrial u = true
  ∧ fst (AddQuotaUsage 3000 1024 u) ≠ None
  ∧ IsActive t = true ∧ CanActivateTrial t = false
  ∧ (fst (AddQuotaUsage 3000 1024 t) = None ↔ 0 < 1024 ≤ DefaultQuotaLimit).
Proof.
  apply (trial_lifecycle 1000 2000 3000 7 "user" "Ann" "" 1024).
  unfold is_int64, maxInt64. lia.
Defined.

End DomainProps.

(** ** The keyboards *)

Module UtilsProps.
Import Utils.

Section Slices.
Local Open Scope nat_scope.

Lemma read_empty h s : len s = 0%nat → read h s = [].
Proof. intros Hl. unfold read. rewrite Hl. by destruct (h !! array s). Qed.

Lemma read_alloc h cells s : wf h s → read (h ++ [cells]) s = read h s.
Proof.
  intros [Hle Hcap]. destruct (decide (0 < cap s)) as [Hpos|Hzero].
  - destruct (Hcap Hpos) as (cells' & Hlk & _). unfold read.
    by rewrite (lookup_app_l_Some _ _ _ _ Hlk), Hlk.
  - rewrite !read_empty by lia. done.
Qed.

Lemma wf_alloc h cells s : wf h s → wf (h ++ [cells]) s.
Proof.
  intros [Hle Hcap]. split; [done|]. intros Hpos.
  destruct (Hcap Hpos) as (cells' & Hlk & Hlen). exists cells'.
  by rewrite (lookup_app_l_Some _ _ _ _ Hlk).
Qed.

Lemma read_fresh h cells n :
  n = length cells → read (h ++ [cells]) (mkSlice (length h) 0 n n) = cells.
Proof.
  intros ->. unfold read. cbn [array len off].
  rewrite list_lookup_middle by done. cbn. by rewrite firstn_all.
Qed.

Lemma wf_lt h s : wf h s → 0 < cap s → array s < length h.
Proof.
  intros [_ Hcap] Hpos. destruct (Hcap Hpos) as (cells & Hlk & _).
  by eapply lookup_lt_Some.
Qed.

Lemma read_store_other h a i x s :
  (0 < cap s → array s ≠ a) → len s ≤ cap s →
  read (alter (λ cells, <[i := x]> cells) a h) s = read h s.
Proof.
  intros Hne Hle. destruct (decide (0 < cap s)) as [Hpos|Hzero].
  - unfold read. by rewrite list_lookup_alter_ne by (symmetry; auto).
  - rewrite !read_empty by lia. done.
Qed.

Lemma wf_store h a i x s :
  wf h s → wf (alter (λ cells, <[i := x]> cells) a h) s.
Proof.
  intros [Hle Hcap]. split; [done|]. intros Hpos.
  destruct (Hcap Hpos) as (cells & Hlk & Hlen).
  destruct (decide (a = array s)) as [->|Hne].
  - exists (<[i := x]> cells). rewrite list_lookup_alter_eq, Hlk. cbn.
    by rewrite length_insert.
  - exists cells. by rewrite list_lookup_alter_ne.
Qed.

Lemma read_store_same h s x :
  wf h s → len s < cap s →
  read (alter (λ cells, <[(off s + len s)%nat := x]> cells) (array s) h)
    (mkSlice (array s) (off s) (S (len s)) (cap s))
  = read h s ++ [x].
Proof.
  intros [Hle Hcap] Hlt. destruct Hcap as (cells & Hlk & Hlen); [lia|].
  unfold read. cbn [array len off]. rewrite list_lookup_alter_eq, Hlk. cbn [fmap option_fmap option_map].
  rewrite drop_insert_ge by lia.
  replace (off s + len s - off s)%nat with (len s) by lia.
  erewrite take_S_r.
  - by rewrite take_insert_ge by lia.
  - apply list_lookup_insert_eq. rewrite length_drop. lia.
Qed.

Lemma owned_other (kb : KeyboardBuilder) row s :
  NoDup (owned (kb ++ [row])) → s ∈ kb → 0 < cap row → 0 < cap s →
  array s ≠ array row.
Proof.
  unfold owned. rewrite omap_app. intros Hnd Hs Hrow Hpos Heq.
  apply NoDup_app in Hnd as (_ & Hdisj & _). apply (Hdisj (array s)).
  - apply list_elem_of_omap. exists s. split; [done|]. by rewrite decide_True.
  - cbn. rewrite decide_True by done. rewrite Heq. apply list_elem_of_singleton. done.
Qed.

Lemma owned_lt h (kb : KeyboardBuilder) a :
  Forall (wf h) kb → a ∈ owned kb → a < length h.
Proof.
  intros Hwf Ha. apply list_elem_of_omap in Ha as (s & Hs & Hsome).
  case_decide as Hpos; [|done]. injection Hsome as <-.
  eapply wf_lt; [|done]. by eapply Forall_forall in Hwf.
Qed.

(** Appending to the last row of a builder that owns its arrays extends
    that row and leaves the rows before it as they read. *)
Lemma append_last `{!Runtime} h (kb : KeyboardBuilder) row x :
  inv h (kb ++ [row]) →
  inv (snd (append row x h)) (kb ++ [fst (append row x h)])
  ∧ read (snd (append row x h)) (fst (append row x h)) = read h row ++ [x]
  ∧ read (snd (append row x h)) <$> kb = read h <$> kb.
Proof.
  intros [Hwf Hnd]. apply Forall_app in Hwf as [Hkb Hrow].
  apply Forall_inv in Hrow. unfold append. case_decide as Hlt; cbn [fst snd].
  - split; [split|split].
    + apply Forall_app. split.
      * eapply Forall_impl; [exact Hkb|]. intros s. apply wf_store.
      * apply Forall_singleton.
        destruct (wf_store h (array row) (off row + len row) x row Hrow)
          as [_ Hcap].
        split; [cbn; lia|]. exact Hcap.
    + unfold owned in *. rewrite omap_app in *. exact Hnd.
    + by apply read_store_same.
    + apply list_fmap_ext. intros i s Hs. apply read_store_other.
      * intros Hpos. eapply owned_other; [exact Hnd| |lia|done].
        by eapply list_elem_of_lookup_2.
      * eapply Forall_lookup_1 in Hkb; [|done]. by destruct Hkb.
  - pose proof (growslice_fits (cap row) (S (len row))) as Hfits.
    split; [split|split].
    + apply Forall_app. split.
      * eapply Forall_impl; [exact Hkb|]. intros s. apply wf_alloc.
      * apply Forall_singleton. split; [cbn; lia|]. intros _. cbn [array off cap].
        eexists. rewrite list_lookup_middle by done. split; [done|].
        rewrite length_app. cbn. rewrite length_replicate.
        assert (length (read h row) = len row) as ->; [|lia].
        destruct Hrow as [Hle Hcap]. unfold read.
        destruct (decide (0 < cap row)) as [Hpos|Hzero].
        -- destruct (Hcap Hpos) as (cells & -> & Hlen).
           rewrite length_take, length_drop. lia.
        -- replace (len row) with 0%nat by lia. by destruct (h !! array row).
    + unfold owned in *. rewrite omap_app in *. cbn.
      rewrite decide_True by lia. apply NoDup_app in Hnd as (Hnd & _ & _).
      apply NoDup_app. split; [done|]. split; [|apply NoDup_singleton].
      intros a Ha Hin. apply list_elem_of_singleton in Hin as ->.
      apply (owned_lt h kb) in Ha; [lia|done].
    + unfold read at 1. cbn [array off len].
      rewrite list_lookup_middle by done. cbn [drop].
      assert (length (read h row) = len row) as Hlen.
      { destruct Hrow as [Hle Hcap]. unfold read.
        destruct (decide (0 < cap row)) as [Hpos|Hzero].
        - destruct (Hcap Hpos) as (cells & -> & Hlen).
          rewrite length_take, length_drop. lia.
        - replace (len row) with 0%nat by lia. by destruct (h !! array row). }
      rewrite cons_middle, app_assoc.
      apply take_app_length'. rewrite length_app. cbn. lia.
    + apply list_fmap_ext. intros i s Hs. apply read_alloc.
      by eapply Forall_lookup_1 in Hkb.
Qed.

Lemma inv_new h : inv h NewKeyboardBuilder.
Proof. split; [apply Forall_nil_2 | apply NoDup_nil_2]. Qed.

(** A row passed as explicit arguments is a fresh array of just these
    buttons. *)
Lemma variadic_row h (kb : KeyboardBuilder) buttons :
  inv h kb →
  inv (snd (variadic buttons h)) (AddRow (fst (variadic buttons h)) kb)
  ∧ InlineKeyboard (snd (variadic buttons h)) (AddRow (fst (variadic buttons h)) kb)
    = InlineKeyboard h kb ++ [buttons].
Proof.
  intros [Hwf Hnd]. unfold AddRow, InlineKeyboard. rewrite fmap_app.
  destruct buttons as [|b buttons]; cbn [variadic fst snd].
  - split; [split|].
    + apply Forall_app. split; [done|]. apply Forall_singleton.
      split; [done|]. cbn. lia.
    + unfold owned in *. rewrite omap_app. cbn. by rewrite app_nil_r.
    + f_equal. cbn. by rewrite read_empty.
  - split; [split|].
    + apply Forall_app. split.
      * eapply Forall_impl; [exact Hwf|]. intros s. apply wf_alloc.
      * apply Forall_singleton. split; [done|]. intros _. cbn [array off cap].
        eexists. rewrite list_lookup_middle by done. split; [done|]. cbn. lia.
    + unfold owned in *. rewrite omap_app. cbn.
      apply NoDup_app. split; [done|]. split; [|apply NoDup_singleton].
      intros a Ha Hin. apply list_elem_of_singleton in Hin as ->.
      apply (owned_lt h kb) in Ha; [lia|done].
    + f_equal.
      * apply list_fmap_ext. intros i s Hs. apply read_alloc.
        by eapply Forall_lookup_1 in Hwf.
      * cbn [fmap list_fmap]. by rewrite read_fresh.
Qed.

Lemma AddButton_last `{!Runtime} h (kb : KeyboardBuilder) button :
  inv h kb →
  inv (snd (AddButton button kb h)) (fst (AddButton button kb h))
  ∧ concat (InlineKeyboard (snd (AddButton button kb h))
              (fst (AddButton button kb h)))
    = concat (InlineKeyboard h kb) ++ [button].
Proof.
  intros Hinv. unfold AddButton.
  assert (∃ kb0 row,
            (if decide (length kb = 0%nat) then kb ++ [emptySlice] else kb)
            = kb0 ++ [row]
            ∧ inv h (kb0 ++ [row])
            ∧ concat (InlineKeyboard h (kb0 ++ [row]))
              = concat (InlineKeyboard h kb)) as (kb0 & row & -> & Hinv' & <-).
  { destruct kb as [|row kb _] using rev_ind.
    - exists [], emptySlice. cbn [app]. rewrite decide_True by done.
      split; [done|]. split.
      + split; [|apply NoDup_nil_2]. apply Forall_singleton.
        split; [done|]. cbn. lia.
      + unfold InlineKeyboard. cbn [fmap list_fmap concat].
        by rewrite read_empty.
    - exists kb, row. rewrite decide_False; [done|]. rewrite length_app. cbn. lia. }
  replace (length (kb0 ++ [row]) - 1)%nat with (length kb0)
    by (rewrite length_app; cbn; lia).
  rewrite list_lookup_middle by done.
  destruct (append_last h kb0 row button Hinv') as (Hinv'' & Hrow & Hkb0).
  destruct (append row button h) as [row' h']. cbn [fst snd] in *.
  rewrite insert_app_r_alt, Nat.sub_diag by lia. cbn [insert list_insert].
  split; [done|]. unfold InlineKeyboard. rewrite !fmap_app, !concat_app, Hkb0.
  cbn. by rewrite Hrow, !app_nil_r, app_assoc.
Qed.

Lemma apply_step_inv `{!Runtime} st s :
  inv (snd st) (fst st) →
  inv (snd (apply_step st s)) (fst (apply_step st s))
  ∧ concat (InlineKeyboard (snd (apply_step st s)) (fst (apply_step st s)))
    = concat (InlineKeyboard (snd st) (fst st)) ++ buttons_of s.
Proof.
  destruct st as [kb h]. cbn [fst snd]. intros Hinv.
  destruct s as [buttons|button]; cbn [apply_step buttons_of fst snd].
  - unfold AddRow_args. cbn [fst snd].
    destruct (variadic_row h kb buttons Hinv) as [Hinv' Hrows].
    destruct (variadic buttons h) as [row h']. cbn [fst snd] in *.
    split; [done|]. rewrite Hrows, concat_app. cbn. by rewrite app_nil_r.
  - by apply AddButton_last.
Qed.

Lemma AddRow_args_rows buttons st :
  inv (snd st) (fst st) →
  inv (snd (AddRow_args buttons st)) (fst (AddRow_args buttons st))
  ∧ markup_rows (AddRow_args buttons st) = markup_rows st ++ [buttons].
Proof.
  destruct st as [kb h]. intros Hinv. unfold AddRow_args, markup_rows.
  cbn [fst snd] in *. destruct (variadic_row h kb buttons Hinv) as [Hinv' Hrows].
  by destruct (variadic buttons h) as [row h'].
Qed.

(** Rows added with explicit arguments read as given, in any heap. *)
Lemma explicit_rows h rows :
  markup_rows (foldl (λ st buttons, AddRow_args buttons st)
                 (NewKeyboardBuilder, h) rows)
  = rows.
Proof.
  assert (∀ st, inv (snd st) (fst st) →
            markup_rows (foldl (λ st buttons, AddRow_args buttons st) st rows)
            = markup_rows st ++ rows) as Hgen.
  { induction rows as [|buttons rows IH]; intros st Hinv; cbn [foldl].
    - by rewrite app_nil_r.
    - destruct (AddRow_args_rows buttons st Hinv) as [Hinv' Hrows].
      by rewrite IH, Hrows, <- app_assoc. }
  exact (Hgen (NewKeyboardBuilder, h) (inv_new h)).
Qed.

Lemma markup_rows_Build (p : KeyboardBuilder * Heap) :
  markup_rows (let '(kb, h) := p in (Build kb, h)) = markup_rows p.
Proof. by destruct p. Qed.

(** The keyboards read the same whatever the heap they are built in. *)
Lemma keyboards_in_any_heap h action :
  markup_rows (CreateMainKeyboard_in h) = CreateMainKeyboard
  ∧ markup_rows (CreateAccountKeyboard_in h) = CreateAccountKeyboard
  ∧ markup_rows (CreateHelpKeyboard_in h) = CreateHelpKeyboard
  ∧ markup_rows (CreateTrialKeyboard_in h) = CreateTrialKeyboard
  ∧ markup_rows (CreateConfirmationKeyboard_in action h)
    = CreateConfirmationKeyboard action
  ∧ markup_rows (CreateBackKeyboard_in action h) = CreateBackKeyboard action.
Proof.
  unfold CreateMainKeyboard, CreateAccountKeyboard, CreateHelpKeyboard,
    CreateTrialKeyboard, CreateConfirmationKeyboard, CreateBackKeyboard,
    CreateMainKeyboard_in, CreateAccountKeyboard_in, CreateHelpKeyboard_in,
    CreateTrialKeyboard_in, CreateConfirmationKeyboard_in, CreateBackKeyboard_in.
  rewrite !markup_rows_Build.
  change (AddRow_args ?b (AddRow_args ?a ?st))
    with (foldl (λ s buttons, AddRow_args buttons s) st [a; b]).
  change (AddRow_args ?a (NewKeyboardBuilder, ?h0))
    with (foldl (λ s buttons, AddRow_args buttons s) (NewKeyboardBuilder, h0) [a]).
  by rewrite !explicit_rows.
Qed.

(** A slice with capacity to spare, passed to [AddRow] twice, is one
    array under two rows: the button [AddButton] puts after the first row
    is overwritten by the one it puts after the second. *)
Example AddRow_shares_the_array `{!Runtime} x a b :
  let s := mkSlice 0 0 1 2 in
  let '(kb, h) := AddButton a (AddRow s NewKeyboardBuilder) [[x; zeroButton]] in
  let '(kb, h) := AddButton b (AddRow s kb) h in
  InlineKeyboard h (Build kb) = [[x; b]; [x; b]].
Proof. reflexivity. Qed.

(** A row that is full is moved to a larger array before the button is
    written; here under the doubling policy. *)
Example AddButton_grows_a_full_row a b c :
  let '(kb, h) := @AddButton doubling a NewKeyboardBuilder [] in
  let '(kb, h) := @AddButton doubling b kb h in
  let '(kb, h) := @AddButton doubling c kb h in
  kb = [mkSlice 2 0 3 4]
  ∧ h = [[a]; [a; b]; [a; b; c; zeroButton]]
  ∧ InlineKeyboard h (Build kb) = [[a; b; c]].
Proof. done. Qed.

(** X26.  When every [AddRow] call has its buttons written out as
    arguments, as every call of the repository has, then whatever [AddRow]
    and [AddButton] calls are made on a new builder, in whatever heap and
    however [append] grows a full row, [Build] returns rows that, read row
    by row, hold exactly the buttons given, in the order given; [AddButton]
    on a builder without rows opens the first row, and otherwise leaves the
    number of rows as it is. *)
Theorem Build_keeps_buttons_in_order `{!Runtime} (steps : list step) (h : Heap) :
  (let '(kb, h') := foldl apply_step (NewKeyboardBuilder, h) steps in
   concat (InlineKeyboard h' (Build kb)) = concat (buttons_of <$> steps))
  ∧ ∀ button (kb : KeyboardBuilder) h',
      length (fst (AddButton button kb h')) = Nat.max 1 (length kb).
Proof.
  split.
  - assert (∀ st, inv (snd st) (fst st) →
              inv (snd (foldl apply_step st steps)) (fst (foldl apply_step st steps))
              ∧ concat (InlineKeyboard (snd (foldl apply_step st steps))
                          (fst (foldl apply_step st steps)))
                = concat (InlineKeyboard (snd st) (fst st))
                  ++ concat (buttons_of <$> steps)) as Hgen.
    { induction steps as [|s steps IH]; intros st Hinv; cbn [foldl].
      - cbn. by rewrite app_nil_r.
      - destruct (apply_step_inv st s Hinv) as [Hinv' Hs].
        destruct (IH _ Hinv') as [Hinv'' Hrest]. split; [done|].
        rewrite Hrest, Hs. cbn. by rewrite app_assoc. }
    destruct (Hgen (NewKeyboardBuilder, h) (inv_new h)) as [_ Hrows].
    by destruct (foldl apply_step (NewKeyboardBuilder, h) steps).
  - intros button kb h'. unfold AddButton.
    destruct kb as [|row kb _] using rev_ind.
    + cbn. by destruct (append emptySlice button h').
    + rewrite decide_False by (rewrite length_app; cbn; lia).
      replace (length (kb ++ [row]) - 1)%nat with (length kb)
        by (rewrite length_app; cbn; lia).
      rewrite list_lookup_middle by done.
      destruct (append row button h') as [row' h'']. cbn [fst].
      rewrite length_insert, length_app. cbn. lia.
Qed.

End Slices.

(** X27.  Of the keyboards the middleware-aware handlers send, only the
    main one has buttons the callback switch knows: its three buttons
    select the trial, account and help handlers.  Every button of every
    other keyboard sent (account, help, trial and the back keyboard of the
    help reply) selects the unknown-callback handler. *)
Theorem keyboard_buttons_and_switch {W : Type} (c : Bot.Commands W)
    ctx callback (w : W) name rows button :
  (name, rows) ∈ keyboards_sent →
  button ∈ concat rows →
  Tgbotapi.CallbackQuery_Data callback = CallbackData button →
  if decide (rows = CreateMainKeyboard)
  then (CallbackData button = "trial"
        ∧ Bot.switch_data c ctx callback w = Bot.handleTrialCallback c ctx callback w)
       ∨ (CallbackData button = "account"
          ∧ Bot.switch_data c ctx callback w = Bot.handleAccountCallback c ctx callback w)
       ∨ (CallbackData button = "help"
          ∧ Bot.switch_data c ctx callback w = Bot.handleHelpCallback c ctx callback w)
  else Bot.switch_data c ctx callback w = Bot.handleUnknownCallback c ctx callback w.
Proof.
  intros Hkb Hbutton Hdata. unfold Bot.switch_data. rewrite Hdata.
  unfold keyboards_sent in Hkb.
  repeat (apply elem_of_cons in Hkb as [[= -> ->]|Hkb]);
    [ .. | by apply elem_of_nil in Hkb ];
    (case_decide as Hmain; [| try (exfalso; by apply Hmain)]);
    try discriminate Hmain;
    cbn in Hbutton;
    repeat (apply elem_of_cons in Hbutton as [->|Hbutton]);
    try (by apply elem_of_nil in Hbutton);
    cbn; repeat case_decide; try done; auto.
Qed.

Lemma keyboard_buttons_and_switch_witness :
  let reply (text : string) : Middleware.HandlerFunc Bot.World :=
    λ ctx _ w, (Middleware.Value None,
                Bot.mkWorld (Bot.clock w) (Bot.limiter w)
                  (Bot.actions w ++ [text]) (Bot.logged w) (S (Bot.handled w))) in
  let c : Bot.Commands Bot.World :=
    Bot.mkCommands _
      (λ ctx m, reply "start" ctx (Middleware.NotRequest ""))
      (λ ctx m, reply "account" ctx (Middleware.NotRequest ""))
      (λ ctx m, reply "help" ctx (Middleware.NotRequest ""))
      (λ ctx m, reply "unknown" ctx (Middleware.NotRequest ""))
      (λ ctx q, reply "trial" ctx (Middleware.NotRequest ""))
      (λ ctx q, reply "account" ctx (Middleware.NotRequest ""))
      (λ ctx q, reply "help" ctx (Middleware.NotRequest ""))
      (λ ctx q, reply "unknown" ctx (Middleware.NotRequest "")) in
  let callback := Tgbotapi.mkCallbackQuery None None "settings" in
  let w := Bot.mkWorld 6000 ∅ [] [] 0 in
  if decide (CreateAccountKeyboard = CreateMainKeyboard)
  then (CallbackData (NewInlineKeyboardButtonData "🔧 Settings" "settings") = "trial"
        ∧ Bot.switch_data c Middleware.Background callback w
          = Bot.handleTrialCallback c Middleware.Background callback w)
       ∨ (CallbackData (NewInlineKeyboardButtonData "🔧 Settings" "settings") = "account"
          ∧ Bot.switch_data c Middleware.Background callback w
            = Bot.handleAccountCallback c Middleware.Background callback w)
       ∨ (CallbackData (NewInlineKeyboardButtonData "🔧 Settings" "settings") = "help"
          ∧ Bot.switch_data c Middleware.Background callback w
            = Bot.handleHelpCallback c Middleware.Background callback w)
  else Bot.switch_data c Middleware.Background callback w
       = Bot.handleUnknownCallback c Middleware.Background callback w.
Proof.
  intros reply c callback w.
  apply (keyboard_buttons_and_switch c Middleware.Background callback w
           "handleAccount" CreateAccountKeyboard
           (NewInlineKeyboardButtonData "🔧 Settings" "settings")).
  - unfold keyboards_sent. apply elem_of_cons. right. apply elem_of_cons. by left.
  - cbn. apply elem_of_cons. right. apply elem_of_cons. by left.
  - reflexivity.
Defined.

End UtilsProps.
